(** * Books API: a shallow embedding of the Express service in [src/index.js]

    The service keeps a collection of books in a document store and exposes
    three routes: [POST /api/books] (multipart create with an optional cover
    image), [GET /api/books/:id] and [GET /api/books] (search, sort,
    pagination).

    Modelling conventions.
    - JavaScript strings are Stdlib strings; a character is a code unit
      below 256.  White space is the part of the JavaScript class that lies
      in that range (9-13, 32, 160); case folding is Unicode simple
      folding restricted to that range.
    - The JavaScript numbers of the handlers are integers ([Z]); [NaN] is
      [None].  Parsing, subtraction and multiplication round to the
      nearest double ([JsNum.double_round]), which changes nothing up to
      2^53 in magnitude.  The count of a collection is below 2^53, where
      the division and ceiling of the page count are exact.
    - The libraries the handlers call (multer, express-validator, mongoose,
      the MongoDB server) are modelled by their documented contracts, each
      next to the call that uses it.
    - Effects (file system, document store, console) are threaded through
      an explicit [World] by a small state monad; every effect also leaves
      an [Event] in the world's trace, oldest first.
    - [fs.unlink] with a callback only asks for a removal: the handler
      goes on and answers, and the removal takes effect when the event
      loop comes round ([settle]).  The operating system may carry a
      removal out sooner; no code of the service can tell before the
      callback runs.
    - What the store leaves open is read from the world: the order it
      gives to documents with equal sort keys ([tie_rank]) may differ
      from one query to the next. *)

From Stdlib Require Import ZArith List Bool Lia.
From Stdlib Require Import Strings.String Strings.Ascii.
From Stdlib Require Import Numbers.DecimalString Numbers.DecimalN.
From Stdlib Require Import Numbers.DecimalPos.
From Stdlib Require Import Sorting.Sorted Sorting.Permutation.
Import ListNotations.

Open Scope string_scope.
Open Scope Z_scope.

(* ================================================================== *)
(** ** Text *)

Module Text.

Definition chars (s : string) : list ascii := list_ascii_of_string s.

Definition code (c : ascii) : Z := Z.of_N (N_of_ascii c).

(** JavaScript white space ([\s], also what [trim] and [parseInt] skip),
    restricted to code units below 256. *)
Definition is_space (c : ascii) : bool :=
  let n := code c in
  ((9 <=? n) && (n <=? 13)) || (n =? 32) || (n =? 160).

Fixpoint drop_space (l : list ascii) : list ascii :=
  match l with
  | c :: t => if is_space c then drop_space t else l
  | [] => []
  end.

(** [String.prototype.trim], and validator.js's [trim] without a
    character set (the regexp [^\s+|\s+$]). *)
Definition trim_chars (l : list ascii) : list ascii :=
  rev (drop_space (rev (drop_space l))).

Definition trim (s : string) : string :=
  string_of_list_ascii (trim_chars (chars s)).

Definition is_upper_ascii (c : ascii) : bool :=
  (65 <=? code c) && (code c <=? 90).

(** Case folding of the letters A to Z only. *)
Definition lower_ascii (c : ascii) : ascii :=
  if is_upper_ascii c then ascii_of_N (N_of_ascii c + 32) else c.

(** Upper-case letters among the code units below 256: A to Z and the
    accented capitals 192 to 222, the multiplication sign 215 apart. *)
Definition is_upper (c : ascii) : bool :=
  let n := code c in
  ((65 <=? n) && (n <=? 90))
  || ((192 <=? n) && (n <=? 222) && negb (n =? 215)).

(** Case folding as a caseless regular expression of the store applies
    it (Unicode simple folding), on code units below 256: every
    upper-case letter has its lower-case partner 32 places on.  The
    letters whose partner lies above 255 (181, 223, 255) fold to
    themselves here. *)
Definition lower (c : ascii) : ascii :=
  if is_upper c then ascii_of_N (N_of_ascii c + 32) else c.

Definition ascii_eqb_ci (a b : ascii) : bool :=
  Ascii.eqb (lower a) (lower b).

(** [String.prototype.startsWith]. *)
Fixpoint starts_with (p l : list ascii) : bool :=
  match p, l with
  | [], _ => true
  | a :: p', b :: l' => Ascii.eqb a b && starts_with p' l'
  | _ :: _, [] => false
  end.

Definition startsWith (s prefix : string) : bool :=
  starts_with (chars prefix) (chars s).

(** The string's [length] property. *)
Definition len (s : string) : Z := Z.of_nat (String.length s).

(** Decimal rendering of a non-negative number, as string concatenation
    with a number produces it. *)
Definition show_nat (n : N) : string :=
  NilZero.string_of_uint (N.to_uint n).

End Text.

(* ================================================================== *)
(** ** Numbers read from the query string *)

Module JsNum.
Import Text.

(** Value of a character as a digit in some radix up to 36. *)
Definition digit_value (c : ascii) : option Z :=
  let n := code c in
  if (48 <=? n) && (n <=? 57) then Some (n - 48)
  else if (97 <=? n) && (n <=? 122) then Some (n - 97 + 10)
  else if (65 <=? n) && (n <=? 90) then Some (n - 65 + 10)
  else None.

(** Longest prefix of digits of radix [R], most significant first. *)
Fixpoint take_digits (R : Z) (l : list ascii) : list Z :=
  match l with
  | c :: t =>
      match digit_value c with
      | Some d => if d <? R then d :: take_digits R t else []
      | None => []
      end
  | [] => []
  end.

Definition digits_value (R : Z) (ds : list Z) : Z :=
  fold_left (fun acc d => acc * R + d) ds 0.

Definition strip_sign (l : list ascii) : Z * list ascii :=
  match l with
  | "-"%char :: t => (-1, t)
  | "+"%char :: t => (1, t)
  | _ => (1, l)
  end.

Definition strip_radix (l : list ascii) : Z * list ascii :=
  match l with
  | "0"%char :: "x"%char :: t => (16, t)
  | "0"%char :: "X"%char :: t => (16, t)
  | _ => (10, l)
  end.

(** The number (an IEEE double) nearest to an integer, ties going to the
    even mantissa: integers up to 2^53 in magnitude are themselves, larger
    ones are cut to 53 significant bits.  (Beyond the largest finite
    double, about 1.8e308, the code has an infinity, which is outside
    this model.) *)
Definition double_round (z : Z) : Z :=
  let a := Z.abs z in
  if a <? 2 ^ 53 then z
  else
    let e := Z.log2 a - 52 in
    let q := a / 2 ^ e in
    let r := a mod 2 ^ e in
    let half := 2 ^ (e - 1) in
    let q' := if (half <? r) || ((r =? half) && Z.odd q) then q + 1 else q in
    Z.sgn z * (q' * 2 ^ e).

(** Subtraction and multiplication of numbers that are integers. *)
Definition sub (a b : Z) : Z := double_round (a - b).
Definition mul (a b : Z) : Z := double_round (a * b).

(** [parseInt(s)] with no radix argument: leading white space, an
    optional sign, an optional [0x] prefix, then the longest run of
    digits, read as a number; [NaN] ([None]) when that run is empty. *)
Definition parseInt_string (s : string) : option Z :=
  let (sign, l1) := strip_sign (drop_space (chars s)) in
  let (R, l2) := strip_radix l1 in
  match take_digits R l2 with
  | [] => None
  | ds => Some (double_round (sign * digits_value R ds))
  end.


(** A query parameter is a string or [undefined]; [parseInt(undefined)]
    reads the text "undefined" and is [NaN]. *)
Definition parseInt (v : option string) : option Z :=
  match v with
  | Some s => parseInt_string s
  | None => None
  end.

(** [x || d] on a number: [NaN] and zero are falsy. *)
Definition or_default (x : option Z) (d : Z) : Z :=
  match x with
  | Some 0 => d
  | Some n => n
  | None => d
  end.

End JsNum.

(* ================================================================== *)
(** ** The query of [GET /api/books] *)

Record Query := mkQuery {
  q_page : option string;
  q_limit : option string;
  q_search : option string;
  q_sortBy : option string;
  q_sortOrder : option string
}.

(** [x || d] on a string or [undefined]: the empty string is falsy. *)
Definition str_or_default (x : option string) (d : string) : string :=
  match x with
  | Some "" => d
  | Some s => s
  | None => d
  end.

(** [const page = parseInt(req.query.page) || 1] *)
Definition page_of (q : Query) : Z :=
  JsNum.or_default (JsNum.parseInt (q_page q)) 1.

(** [const limit = parseInt(req.query.limit) || 10] *)
Definition limit_of (q : Query) : Z :=
  JsNum.or_default (JsNum.parseInt (q_limit q)) 10.

(** [const search = req.query.search || ""] *)
Definition search_of (q : Query) : string :=
  str_or_default (q_search q) "".

(** [const sortBy = req.query.sortBy || "createdAt"] *)
Definition sortBy_of (q : Query) : string :=
  str_or_default (q_sortBy q) "createdAt".

(** [const sortOrder = req.query.sortOrder === "asc" ? 1 : -1] *)
Definition sortOrder_of (q : Query) : Z :=
  match q_sortOrder q with
  | Some s => if String.eqb s "asc" then 1 else -1
  | None => -1
  end.

(** [const skip = (page - 1) * limit] *)
Definition skip_of (q : Query) : Z :=
  JsNum.mul (JsNum.sub (page_of q) 1) (limit_of q).


(* ================================================================== *)
(** ** Regular expressions: the store's [$regex] operator with option [i]

    The list handler hands the search text to the store as the pattern of a
    caseless, unanchored regular expression.  The pattern language modelled
    here is the fragment made of literal characters, [.], a backslash
    before a punctuation character, the postfix operators [*], [+], [?] on
    a single character, and alternation [|].  A pattern outside the
    fragment (groups, classes, anchors, counted repetition, backslash
    before a letter or digit) or one the engine rejects (a dangling
    operator or backslash) does not compile: [compile] is [None]. *)

Module Regex.
Import Text.

Inductive regex : Type :=
| Eps : regex
| Chr : ascii -> regex
| AnyChr : regex
| Seq : regex -> regex -> regex
| Alt : regex -> regex -> regex
| Star : regex -> regex
| Fail : regex.

Inductive token : Type :=
| TChr : ascii -> token
| TDot : token
| TStar : token
| TPlus : token
| TOpt : token
| TBar : token.

(** Characters that are not read as themselves in a pattern. *)
Definition is_meta (c : ascii) : bool :=
  existsb (Ascii.eqb c) (chars "\^$.|?*+()[{").

Definition is_alnum (c : ascii) : bool :=
  let n := code c in
  ((48 <=? n) && (n <=? 57)) || ((65 <=? n) && (n <=? 90))
  || ((97 <=? n) && (n <=? 122)).

Fixpoint tokens (l : list ascii) : option (list token) :=
  match l with
  | [] => Some []
  | "\"%char :: c :: t =>
      if is_alnum c then None
      else option_map (cons (TChr c)) (tokens t)
  | "\"%char :: [] => None
  | "."%char :: t => option_map (cons TDot) (tokens t)
  | "*"%char :: t => option_map (cons TStar) (tokens t)
  | "+"%char :: t => option_map (cons TPlus) (tokens t)
  | "?"%char :: t => option_map (cons TOpt) (tokens t)
  | "|"%char :: t => option_map (cons TBar) (tokens t)
  | c :: t =>
      if is_meta c then None
      else option_map (cons (TChr c)) (tokens t)
  end.

Definition atom_of (t : token) : option regex :=
  match t with
  | TChr c => Some (Chr c)
  | TDot => Some AnyChr
  | _ => None
  end.

Definition is_postfix (t : token) : bool :=
  match t with
  | TStar | TPlus | TOpt => true
  | _ => false
  end.

Definition postfix (t : token) (a : regex) : regex :=
  match t with
  | TStar => Star a
  | TPlus => Seq a (Star a)
  | TOpt => Alt a Eps
  | _ => a
  end.

(** One alternative, up to the next [|]; the unread tokens are returned
    with it.  A postfix operator must follow a character, and only one
    may. *)
Fixpoint branch (ts : list token) : option (regex * list token) :=
  match ts with
  | [] => Some (Eps, [])
  | TBar :: rest => Some (Eps, ts)
  | t :: rest =>
      match atom_of t with
      | None => None
      | Some a =>
          match rest with
          | p :: rest' =>
              if is_postfix p then
                match rest' with
                | p' :: _ =>
                    if is_postfix p' then None
                    else
                      match branch rest' with
                      | Some (r, out) => Some (Seq (postfix p a) r, out)
                      | None => None
                      end
                | [] => Some (Seq (postfix p a) Eps, [])
                end
              else
                match branch rest with
                | Some (r, out) => Some (Seq a r, out)
                | None => None
                end
          | [] => Some (Seq a Eps, [])
          end
      end
  end.

(** Alternatives separated by [|]; [fuel] bounds their number. *)
Fixpoint alternatives (fuel : nat) (ts : list token) : option regex :=
  match fuel with
  | O => None
  | S fuel' =>
      match branch ts with
      | Some (r, []) => Some r
      | Some (r, TBar :: rest) =>
          option_map (Alt r) (alternatives fuel' rest)
      | _ => None
      end
  end.

Definition compile (pattern : string) : option regex :=
  match tokens (chars pattern) with
  | Some ts => alternatives (S (List.length ts)) ts
  | None => None
  end.

(** Does the expression accept the empty text? *)
Fixpoint nullable (r : regex) : bool :=
  match r with
  | Eps => true
  | Chr _ => false
  | AnyChr => false
  | Seq a b => nullable a && nullable b
  | Alt a b => nullable a || nullable b
  | Star _ => true
  | Fail => false
  end.

(** What remains to be read after the character [x].  Letters are
    compared caselessly; [.] accepts every character but line feed. *)
Fixpoint deriv (x : ascii) (r : regex) : regex :=
  match r with
  | Eps => Fail
  | Chr c => if ascii_eqb_ci c x then Eps else Fail
  | AnyChr => if code x =? 10 then Fail else Eps
  | Seq a b =>
      if nullable a then Alt (Seq (deriv x a) b) (deriv x b)
      else Seq (deriv x a) b
  | Alt a b => Alt (deriv x a) (deriv x b)
  | Star a => Seq (deriv x a) (Star a)
  | Fail => Fail
  end.

(** Some prefix of the text is accepted. *)
Fixpoint matches_prefix (r : regex) (l : list ascii) : bool :=
  nullable r ||
  match l with
  | x :: t => matches_prefix (deriv x r) t
  | [] => false
  end.

(** Unanchored search: some part of the text is accepted. *)
Fixpoint search_chars (r : regex) (l : list ascii) : bool :=
  matches_prefix r l ||
  match l with
  | _ :: t => search_chars r t
  | [] => false
  end.

Definition test (r : regex) (text : string) : bool :=
  search_chars r (chars text).

(** The texts an expression accepts, as a relation: the reference the
    derivative matcher is checked against. *)
Inductive lang : regex -> list ascii -> Prop :=
| lang_eps : lang Eps []
| lang_chr c x : ascii_eqb_ci c x = true -> lang (Chr c) [x]
| lang_any x : code x <> 10 -> lang AnyChr [x]
| lang_seq a b u v : lang a u -> lang b v -> lang (Seq a b) (u ++ v)
| lang_alt_l a b u : lang a u -> lang (Alt a b) u
| lang_alt_r a b u : lang b u -> lang (Alt a b) u
| lang_star_nil a : lang (Star a) []
| lang_star_app a u v :
    lang a u -> lang (Star a) v -> lang (Star a) (u ++ v).

(** The expression a pattern of literal characters compiles to. *)
Fixpoint literal (l : list ascii) : regex :=
  match l with
  | [] => Eps
  | c :: t => Seq (Chr c) (literal t)
  end.

End Regex.

(* ================================================================== *)
(** ** Data model *)

(** A stored document of the [Book] model ([bookSchema], with the
    timestamps mongoose adds). *)
Record Book := mkBook {
  _id : string;
  title : string;
  author : string;
  description : string;
  image : option string;
  createdAt : N;
  updatedAt : N
}.

(** What the create handler passes to [new Book(...)]. *)
Record BookData := mkBookData {
  d_title : string;
  d_author : string;
  d_description : string;
  d_image : option string
}.

(** The file part of a multipart request, as multer sees it. *)
Record Upload := mkUpload {
  originalname : string;
  mimetype : string;
  size : Z
}.

(** [req.file] once the storage engine has written the upload. *)
Record File := mkFile {
  filename : string;
  path : string
}.

(** A thrown JavaScript error. *)
Record FieldError := mkFieldError {
  fe_field : string;
  fe_message : string
}.

Inductive Exn : Type :=
| MulterError (code : string) (message : string)
| ValidationError (errors : list FieldError)
| Error (message : string).

Definition exn_message (e : Exn) : string :=
  match e with
  | MulterError _ m => m
  | ValidationError _ => "Book validation failed"
  | Error m => m
  end.

Inductive result (A : Type) : Type :=
| Ok (a : A)
| Throw (e : Exn).
Arguments Ok {A} a.
Arguments Throw {A} e.

Record Pagination := mkPagination {
  currentPage : Z;
  totalPages : Z;
  totalBooks : Z;
  hasNextPage : bool;
  hasPrevPage : bool;
  limit : Z
}.

(** The JSON bodies the handlers send. *)
Inductive Body : Type :=
| Created (message : string) (data : Book)
| Found (data : Book)
| Listing (data : list Book) (pagination : Pagination)
| Invalid (message : string) (errors : list FieldError)
| Failure (message : string) (error : string)
| Message (message : string).

Record Response := mkResponse {
  status : Z;
  body : Body
}.

(* ================================================================== *)
(** ** The world and its effects *)

Inductive Event : Type :=
| FsWrite (p : string)
| FsRemove (p : string)
| FsUnlink (p : string)
| ConsoleError (label : string)
| DbInsert (b : Book)
| DbFindById (id : string)
| DbCount
| DbFind (skip lim : Z).

Record World := mkWorld {
  books : list Book;          (* the collection, in insertion order *)
  db_fault : option string;   (* the store is failing, with this message *)
  files : list string;        (* paths present on disk *)
  unlink_denied : bool;       (* the file system refuses removals *)
  now : N;                    (* Date.now() *)
  random : N;                 (* Math.round(Math.random() * 1e9) *)
  next_oid : N;               (* seed of the next ObjectId *)
  trace : list Event;
  pending : list (string * string);
                              (* removals asked of the file system and not
                                 yet completed: path and log label *)
  tie_rank : Z -> Z -> Book -> Z
                              (* the order the store gives, for a skip and a
                                 limit, to books with equal sort keys *)
}.

Definition M (A : Type) : Type := World -> A * World.

Definition ret {A} (a : A) : M A := fun w => (a, w).

Definition bind {A B} (m : M A) (k : A -> M B) : M B :=
  fun w => let (a, w') := m w in k a w'.

Notation "x <- m ;; k" := (bind m (fun x => k))
  (at level 61, m at next level, right associativity).
Notation "m ;;; k" := (bind m (fun _ => k))
  (at level 61, right associativity).

Definition get : M World := fun w => (w, w).

Definition emit (e : Event) : M unit := fun w =>
  (tt, mkWorld (books w) (db_fault w) (files w) (unlink_denied w)
               (now w) (random w) (next_oid w) (trace w ++ [e]) (pending w) (tie_rank w)).

Definition set_files (fs : list string) : M unit := fun w =>
  (tt, mkWorld (books w) (db_fault w) fs (unlink_denied w)
               (now w) (random w) (next_oid w) (trace w) (pending w) (tie_rank w)).

Definition set_books (bs : list Book) (oid : N) : M unit := fun w =>
  (tt, mkWorld bs (db_fault w) (files w) (unlink_denied w)
               (now w) (random w) oid (trace w) (pending w) (tie_rank w)).

Definition mem (x : string) (l : list string) : bool :=
  existsb (String.eqb x) l.

Definition remove_path (x : string) (l : list string) : list string :=
  filter (fun y => negb (String.eqb x y)) l.

Definition set_pending (ps : list (string * string)) : M unit := fun w =>
  (tt, mkWorld (books w) (db_fault w) (files w) (unlink_denied w)
               (now w) (random w) (next_oid w) (trace w) ps (tie_rank w)).

(** [fs.unlink(path, (err) => { if (err) console.error(label, err) })]:
    the call only asks for the removal and returns; the handler goes on
    (and answers) without waiting for it. *)
Definition unlink (p : string) (label : string) : M unit :=
  emit (FsUnlink p) ;;;
  w <- get ;;
  set_pending (pending w ++ [(p, label)])%list.

(** A removal that was asked for takes effect: the file goes, or the
    removal fails and its callback writes the error to the console. *)
Definition complete (op : string * string) : M unit :=
  let (p, label) := op in
  w <- get ;;
  if unlink_denied w || negb (mem p (files w))
  then emit (ConsoleError label)
  else set_files (remove_path p (files w)).

Fixpoint complete_all (ops : list (string * string)) : M unit :=
  match ops with
  | [] => ret tt
  | op :: rest => complete op ;;; complete_all rest
  end.

(** The event loop comes round: every removal asked for so far is
    completed, in the order of the calls. *)
Definition settle (w : World) : World :=
  snd ((set_pending [] ;;; complete_all (pending w)) w).

(* ================================================================== *)
(** ** Upload middleware (multer) *)

Definition has_char (c : ascii) (l : list ascii) : bool :=
  existsb (Ascii.eqb c) l.

(** Last portion of a path. *)
Fixpoint base (l : list ascii) : list ascii :=
  match l with
  | [] => []
  | c :: t =>
      if has_char "/" t then base t
      else if Ascii.eqb c "/" then t else c :: t
  end.

(** Suffix starting at the last dot. *)
Fixpoint from_last_dot (l : list ascii) : option (list ascii) :=
  match l with
  | [] => None
  | c :: t =>
      match from_last_dot t with
      | Some e => Some e
      | None => if Ascii.eqb c "." then Some l else None
      end
  end.

(** [path.extname]: from the last dot of the last portion to the end; a
    dot that starts the portion does not count. *)
Definition extname (name : string) : string :=
  match base (Text.chars name) with
  | [] => ""
  | c :: t =>
      if String.eqb (string_of_list_ascii (c :: t)) ".." then ""
      else match from_last_dot t with
           | Some e => string_of_list_ascii e
           | None => ""
           end
  end.

(** [fileFilter]: [cb(null, true)] for an image, [cb(new Error(...), false)]
    otherwise. *)
Definition fileFilter (file : Upload) : result bool :=
  if Text.startsWith (mimetype file) "image/" then Ok true
  else Throw (Error "Only image files are allowed!").

(** [limits.fileSize]: the largest size, in bytes, multer lets through. *)
Definition fileSize : Z := 5 * 1024 * 1024.

(** [storage.filename] of the disk storage. *)
Definition storage_filename (file : Upload) : M string :=
  w <- get ;;
  let uniqueSuffix := Text.show_nat (now w) ++ "-" ++ Text.show_nat (random w) in
  ret ("book-" ++ uniqueSuffix ++ extname (originalname file)).

(** [upload.single("image")], for a request whose only file part is the
    field [image].  The filter runs before the storage engine is asked to
    write.  The engine streams the part to disk; when the part outgrows
    [fileSize] multer removes what was written and fails with the
    [LIMIT_FILE_SIZE] error.  A part of exactly [fileSize] bytes passes
    here, as it does with multer 2.4; releases on busboy 1.6 refuse
    it. *)
Definition upload_single (part : option Upload) : M (result (option File)) :=
  match part with
  | None => ret (Ok None)
  | Some file =>
      match fileFilter file with
      | Throw e => ret (Throw e)
      | Ok false => ret (Ok None)
      | Ok true =>
          name <- storage_filename file ;;
          let p := "uploads/" ++ name in
          emit (FsWrite p) ;;;
          w <- get ;;
          set_files (p :: files w) ;;;
          if fileSize <? size file then
            emit (FsRemove p) ;;;
            set_files (remove_path p (files w)) ;;;
            ret (Throw (MulterError "LIMIT_FILE_SIZE" "File too large"))
          else ret (Ok (Some (mkFile name p)))
      end
  end.

(* ================================================================== *)
(** ** Request validation (express-validator) *)

Record CreateRequest := mkCreateRequest {
  body_title : option string;
  body_author : option string;
  body_description : option string;
  upload : option Upload
}.

(** The text a validator is run on; a missing field reads as empty. *)
Definition toString (v : option string) : string :=
  match v with
  | Some s => s
  | None => ""
  end.

Definition notEmpty (s : string) : bool := negb (Text.len s =? 0).

Definition isLength (s : string) (min max : Z) : bool :=
  (min <=? Text.len s) && (Text.len s <=? max).

(** One chain [body(f).notEmpty().withMessage(m1).isLength({min, max})
    .withMessage(m2).trim()].  The steps run in the order written: both
    validators see the field as it was sent, and the sanitizer then
    replaces the field by its trimmed text. *)
Definition chain (field : string) (m1 m2 : string) (min max : Z)
    (v : option string) : list FieldError * string :=
  let s := toString v in
  let e1 := if notEmpty s then [] else [mkFieldError field m1] in
  let e2 := if isLength s min max then [] else [mkFieldError field m2] in
  ((e1 ++ e2)%list, Text.trim s).

(** [addBookValidation]: the errors of the three chains and the body as the
    sanitizers leave it. *)
Definition addBookValidation (req : CreateRequest)
    : list FieldError * (string * string * string) :=
  let (et, t) := chain "title" "Title is required"
      "Title must be between 1 and 200 characters" 1 200 (body_title req) in
  let (ea, a) := chain "author" "Author is required"
      "Author must be between 1 and 100 characters" 1 100 (body_author req) in
  let (ed, d) := chain "description" "Description is required"
      "Description must be between 10 and 1000 characters" 10 1000
      (body_description req) in
  ((et ++ ea ++ ed)%list, (t, a, d)).

Definition is_hex (c : ascii) : bool :=
  let n := Text.code c in
  ((48 <=? n) && (n <=? 57)) || ((65 <=? n) && (n <=? 70))
  || ((97 <=? n) && (n <=? 102)).

(** What is left of a text after an optional prefix [0x] or [0h], in
    either case of the letter. *)
Definition hex_body (l : list ascii) : list ascii :=
  match l with
  | "0"%char :: c :: t =>
      if Ascii.eqb (Text.lower_ascii c) "x" || Ascii.eqb (Text.lower_ascii c) "h"
      then t else l
  | _ => l
  end.

(** validator.js's [isHexadecimal], the regular expression
    [^(0x|0h)?[0-9A-F]+$] matched caselessly: an optional prefix, then at
    least one hexadecimal digit and nothing else. *)
Definition isHexadecimal (s : string) : bool :=
  match hex_body (Text.chars s) with
  | [] => false
  | body => forallb is_hex body
  end.

(** validator.js's [isMongoId]: [isHexadecimal(str) && str.length === 24]. *)
Definition isMongoId (s : string) : bool :=
  isHexadecimal s && (Text.len s =? 24).

(** The texts mongoose casts to an ObjectId among those of 24 characters:
    24 hexadecimal digits. *)
Definition is_object_id (s : string) : bool :=
  (Text.len s =? 24) && forallb is_hex (Text.chars s).

(** [getBookValidation] *)
Definition getBookValidation (id : string) : list FieldError :=
  if isMongoId id then [] else [mkFieldError "id" "Invalid book ID format"].

(** [handleValidationErrors]: [None] stands for [next()]. *)
Definition handleValidationErrors (errors : list FieldError)
    (file : option File) : M (option Response) :=
  match errors with
  | [] => ret None
  | _ :: _ =>
      match file with
      | Some f => unlink (path f) "Error deleting file:"
      | None => ret tt
      end ;;;
      ret (Some (mkResponse 400 (Invalid "Validation failed" errors)))
  end.

(* ================================================================== *)
(** ** The document store (mongoose over MongoDB) *)

Definition hex_digit (n : N) : ascii :=
  nth (N.to_nat n) (Text.chars "0123456789abcdef") "0"%char.

Fixpoint hex_digits (k : nat) (n : N) (acc : list ascii) : list ascii :=
  match k with
  | O => acc
  | S k' => hex_digits k' (n / 16) (hex_digit (n mod 16) :: acc)
  end.

(** Text of the ObjectId made from a seed: 24 hexadecimal digits. *)
Definition oid (seed : N) : string :=
  string_of_list_ascii (hex_digits 24 seed []).

Definition lower_string (s : string) : string :=
  string_of_list_ascii (map Text.lower_ascii (Text.chars s)).

(** Two hexadecimal texts name the same ObjectId. *)
Definition oid_eqb (a b : string) : bool :=
  String.eqb (lower_string a) (lower_string b).

(** Schema validation of one [String] path with [required], [trim] and
    [maxlength]: the setter trims, an empty text is not a value, and the
    length bound is checked on what is stored. *)
Definition path_errors (name : string) (maxlength : Z) (v : string)
    : list FieldError :=
  let t := Text.trim v in
  if Text.len t =? 0 then
    [mkFieldError name ("Path `" ++ name ++ "` is required.")]
  else if maxlength <? Text.len t then
    [mkFieldError name
       ("Path `" ++ name ++ "` (`" ++ t
        ++ "`) is longer than the maximum allowed length ("
        ++ Text.show_nat (Z.to_N maxlength) ++ ").")]
  else [].

Definition schema_errors (d : BookData) : list FieldError :=
  (path_errors "title" 200 (d_title d)
   ++ path_errors "author" 100 (d_author d)
   ++ path_errors "description" 1000 (d_description d))%list.

(** [new Book(bookData).save()]: the document is validated against the
    schema in the process; only a valid one is sent to the store, which
    assigns the identifier.  Both timestamps are the time of the save. *)
Definition save (d : BookData) : M (result Book) :=
  match schema_errors d with
  | (_ :: _) as errs => ret (Throw (ValidationError errs))
  | [] =>
      w <- get ;;
      let b := mkBook (oid (next_oid w)) (Text.trim (d_title d))
                 (Text.trim (d_author d)) (Text.trim (d_description d))
                 (d_image d) (now w) (now w) in
      emit (DbInsert b) ;;;
      match db_fault w with
      | Some m => ret (Throw (Error m))
      | None =>
          set_books (books w ++ [b])%list (next_oid w + 1)%N ;;;
          ret (Ok b)
      end
  end.

Definition dquote : string := String (ascii_of_nat 34) "".

(** The message of mongoose's cast error for a text that is no
    ObjectId. *)
Definition cast_error (id : string) : string :=
  "Cast to ObjectId failed for value " ++ dquote ++ id ++ dquote
  ++ " (type string) at path " ++ dquote ++ "_id" ++ dquote
  ++ " for model " ++ dquote ++ "Book" ++ dquote.

(** [Book.findById(id)].  The text is first cast to an ObjectId, in the
    process: the route only calls with texts of 24 characters, of which
    those made of 24 hexadecimal digits cast; for any other the query
    fails with the cast error and the store is not asked. *)
Definition findById (id : string) : M (result (option Book)) :=
  if negb (is_object_id id) then ret (Throw (Error (cast_error id)))
  else
    emit (DbFindById id) ;;;
    w <- get ;;
    match db_fault w with
    | Some m => ret (Throw (Error m))
    | None => ret (Ok (find (fun b => oid_eqb (_id b) id) (books w)))
    end.

(** Values of a document's fields, as far as ordering and matching need
    them. *)
Inductive value : Type :=
| VNull : value
| VString : string -> value
| VObjectId : string -> value
| VDate : N -> value.

(** The value a path names in a book; a path the document does not have
    reads as null. *)
Definition field_value (name : string) (b : Book) : value :=
  if String.eqb name "_id" then VObjectId (_id b)
  else if String.eqb name "title" then VString (title b)
  else if String.eqb name "author" then VString (author b)
  else if String.eqb name "description" then VString (description b)
  else if String.eqb name "image" then
    match image b with
    | Some s => VString s
    | None => VNull
    end
  else if String.eqb name "createdAt" then VDate (createdAt b)
  else if String.eqb name "updatedAt" then VDate (updatedAt b)
  else VNull.

(** Rank of a value's type in the store's comparison order. *)
Definition type_rank (v : value) : Z :=
  match v with
  | VNull => 0
  | VString _ => 1
  | VObjectId _ => 2
  | VDate _ => 3
  end.

(** The store's order on values: by type first, then strings and
    identifiers by their code units, dates by time. *)
Definition value_leb (a b : value) : bool :=
  match a, b with
  | VString x, VString y => String.leb x y
  | VObjectId x, VObjectId y => String.leb x y
  | VDate x, VDate y => N.leb x y
  | _, _ => type_rank a <=? type_rank b
  end.

(** A query filter: the empty object, or [$or] over clauses
    [{ field: { $regex: pattern, $options: options } }]. *)
Inductive Filter : Type :=
| All : Filter
| Or (clauses : list (string * string * string)) : Filter.

(** One clause as a test on books; only the option [i] is modelled. *)
Definition compile_clause (c : string * string * string)
    : option (Book -> bool) :=
  let '(name, pattern, options) := c in
  if String.eqb options "i" then
    match Regex.compile pattern with
    | Some r =>
        Some (fun b =>
                match field_value name b with
                | VString s => Regex.test r s
                | _ => false
                end)
    | None => None
    end
  else None.

Fixpoint compile_clauses (cs : list (string * string * string))
    : option (list (Book -> bool)) :=
  match cs with
  | [] => Some []
  | c :: t =>
      match compile_clause c, compile_clauses t with
      | Some f, Some fs => Some (f :: fs)
      | _, _ => None
      end
  end.

(** The filter as a test on books; [None] when a pattern lies outside the
    modelled fragment. *)
Definition compile_filter (f : Filter) : option (Book -> bool) :=
  match f with
  | All => Some (fun _ => true)
  | Or cs =>
      match compile_clauses cs with
      | Some fs => Some (fun b => existsb (fun f => f b) fs)
      | None => None
      end
  end.

Section Sorting.
Variable A : Type.
Variable le : A -> A -> bool.

Fixpoint insert_sorted (x : A) (l : list A) : list A :=
  match l with
  | [] => [x]
  | y :: t => if le x y then x :: y :: t else y :: insert_sorted x t
  end.

(** Sorting by insertion, for an order given as a total test. *)
Fixpoint sort_by (l : list A) : list A :=
  match l with
  | [] => []
  | x :: t => insert_sorted x (sort_by t)
  end.
End Sorting.
Arguments insert_sorted {A} le x l.
Arguments sort_by {A} le l.

(** [.sort({ [name]: direction })]: ascending for a positive direction,
    descending otherwise. *)
Definition sort_leb (name : string) (direction : Z) (a b : Book) : bool :=
  if 0 <? direction
  then value_leb (field_value name a) (field_value name b)
  else value_leb (field_value name b) (field_value name a).

(** The order the store returns documents in for that sort: by the sort
    key, and among documents with equal keys by a rank of the store's own
    choosing, about which the store promises nothing. *)
Definition store_leb (name : string) (direction : Z) (rank : Book -> Z)
    (a b : Book) : bool :=
  if sort_leb name direction a b && negb (sort_leb name direction b a)
  then true
  else if sort_leb name direction b a && negb (sort_leb name direction a b)
  then false
  else rank a <=? rank b.

(** Documents of the first batch of a cursor when no batch size is
    asked for. *)
Definition first_batch : Z := 101.

(** [Book.countDocuments(filter)] *)
Definition countDocuments (p : Book -> bool) : M (result Z) :=
  emit DbCount ;;;
  w <- get ;;
  match db_fault w with
  | Some m => ret (Throw (Error m))
  | None => ret (Ok (Z.of_nat (List.length (filter p (books w)))))
  end.

(** [Book.find(filter).sort(...).skip(skip).limit(lim)].  The store
    rejects a negative skip.  A limit of zero is no limit; a negative
    limit asks for that many documents and closes the cursor after its
    first batch. *)
Definition find_page (p : Book -> bool) (name : string) (direction : Z)
    (skip lim : Z) : M (result (list Book)) :=
  emit (DbFind skip lim) ;;;
  w <- get ;;
  match db_fault w with
  | Some m => ret (Throw (Error m))
  | None =>
      if skip <? 0 then ret (Throw (Error "Skip value must be non-negative"))
      else
        let sorted :=
          sort_by (store_leb name direction (tie_rank w skip lim))
                  (filter p (books w)) in
        let rest := skipn (Z.to_nat skip) sorted in
        ret (Ok (if lim =? 0 then rest
                 else if lim <? 0
                 then firstn (Z.to_nat (Z.min (- lim) first_batch)) rest
                 else firstn (Z.to_nat lim) rest))
  end.

(* ================================================================== *)
(** ** Routes *)

(** The global error handler, which receives what a middleware passes to
    [next(err)]. *)
Definition error_handler (error : Exn) : Response :=
  match error with
  | MulterError code _ =>
      if String.eqb code "LIMIT_FILE_SIZE"
      then mkResponse 400 (Message "File too large. Maximum size is 5MB.")
      else mkResponse 500 (Failure "Something went wrong!" (exn_message error))
  | _ => mkResponse 500 (Failure "Something went wrong!" (exn_message error))
  end.

(** The handler of [POST /api/books], behind the upload and validation
    middleware. *)
Definition create_book (fields : string * string * string)
    (file : option File) : M Response :=
  let '(title, author, description) := fields in
  let bookData :=
    mkBookData title author description
      (match file with
       | Some f => Some ("/uploads/" ++ filename f)
       | None => None
       end) in
  saved <- save bookData ;;
  match saved with
  | Ok savedBook =>
      ret (mkResponse 201 (Created "Book added successfully" savedBook))
  | Throw error =>
      match file with
      | Some f => unlink (path f) "Error deleting file:"
      | None => ret tt
      end ;;;
      match error with
      | ValidationError errs =>
          ret (mkResponse 400 (Invalid "Validation error" errs))
      | _ =>
          ret (mkResponse 500
                 (Failure "Internal server error" (exn_message error)))
      end
  end.

(** [POST /api/books]: [upload.single("image")], [addBookValidation],
    [handleValidationErrors], then the handler. *)
Definition post_books (req : CreateRequest) : M Response :=
  uploaded <- upload_single (upload req) ;;
  match uploaded with
  | Throw error => ret (error_handler error)
  | Ok file =>
      let (errors, fields) := addBookValidation req in
      checked <- handleValidationErrors errors file ;;
      match checked with
      | Some response => ret response
      | None => create_book fields file
      end
  end.

(** [GET /api/books/:id]: [getBookValidation], [handleValidationErrors],
    then the handler. *)
Definition get_book (id : string) : M Response :=
  checked <- handleValidationErrors (getBookValidation id) None ;;
  match checked with
  | Some response => ret response
  | None =>
      found <- findById id ;;
      match found with
      | Ok None => ret (mkResponse 404 (Message "Book not found"))
      | Ok (Some book) => ret (mkResponse 200 (Found book))
      | Throw error =>
          ret (mkResponse 500
                 (Failure "Internal server error" (exn_message error)))
      end
  end.

(** The filter the list handler builds from the search text. *)
Definition searchQuery (search : string) : Filter :=
  match search with
  | "" => All
  | _ => Or [("title", search, "i"); ("author", search, "i");
             ("description", search, "i")]
  end.

(** [Math.ceil(a / b)] for a divisor that is not zero. *)
Definition ceil_div (a b : Z) : Z := - ((- a) / b).

(** The body of the list handler once the store has compiled the
    filter. *)
Definition list_with (p : Book -> bool) (q : Query) : M Response :=
  let page := page_of q in
  let limit := limit_of q in
  let sortBy := sortBy_of q in
  let sortOrder := sortOrder_of q in
  let skip := JsNum.mul (JsNum.sub page 1) limit in
  counted <- countDocuments p ;;
  match counted with
  | Throw error =>
      ret (mkResponse 500 (Failure "Internal server error" (exn_message error)))
  | Ok totalBooks =>
      let totalPages := ceil_div totalBooks limit in
      fetched <- find_page p sortBy sortOrder skip limit ;;
      match fetched with
      | Throw error =>
          ret (mkResponse 500
                 (Failure "Internal server error" (exn_message error)))
      | Ok books =>
          ret (mkResponse 200
                 (Listing books
                    (mkPagination page totalPages totalBooks
                       (page <? totalPages) (1 <? page) limit)))
      end
  end.

(** [GET /api/books].  [None] when the search text is a pattern outside
    the modelled fragment. *)
Definition list_books (q : Query) (w : World) : option (Response * World) :=
  match compile_filter (searchQuery (search_of q)) with
  | Some p => Some (list_with p q w)
  | None => None
  end.

(* ================================================================== *)
(** ** Sample data used by the examples *)

(** A quiet world: empty collection and disk, nothing failing. *)
Definition world0 : World :=
  mkWorld [] None [] false 1700000000000 424242 0 [] [] (fun _ _ _ => 0).

Definition with_books (bs : list Book) (w : World) : World :=
  mkWorld bs (db_fault w) (files w) (unlink_denied w)
          (now w) (random w) (next_oid w) (trace w) (pending w) (tie_rank w).

Definition with_db_fault (m : option string) (w : World) : World :=
  mkWorld (books w) m (files w) (unlink_denied w)
          (now w) (random w) (next_oid w) (trace w) (pending w) (tie_rank w).

Definition with_unlink_denied (d : bool) (w : World) : World :=
  mkWorld (books w) (db_fault w) (files w) d
          (now w) (random w) (next_oid w) (trace w) (pending w) (tie_rank w).

Definition gatsby : Book :=
  mkBook (oid 0) "The Great Gatsby" "F. Scott Fitzgerald"
         "A portrait of the Jazz Age" None 1700000000000 1700000000000.

Definition ulysses : Book :=
  mkBook (oid 1) "Ulysses" "James Joyce"
         "A day in Dublin" None 1700000000500 1700000000500.

(** The [i]-th of a run of books created one after the other. *)
Definition numbered (i : nat) : Book :=
  let n := N.of_nat i in
  mkBook (oid n) ("Book " ++ Text.show_nat n) "An Author"
         "Some description" None (1700000000000 + n) (1700000000000 + n).

Definition shelf (n : nat) : list Book := map numbered (seq 0 n).


Definition cover : Upload := mkUpload "cover.png" "image/png" 2048.

Definition trace_has_insert (t : list Event) : bool :=
  existsb (fun e => match e with DbInsert _ => true | _ => false end) t.

Definition trace_has_write (t : list Event) : bool :=
  existsb (fun e => match e with FsWrite _ => true | _ => false end) t.

(** The search of the specification, in its words: the term occurs in the
    text as a substring, letter case aside. *)
Definition occurs_ci (term text : string) : Prop :=
  exists before after,
    map Text.lower (Text.chars text) =
    (before ++ map Text.lower (Text.chars term) ++ after)%list.


(** A search text with no character a pattern reads specially. *)
Definition plain (term : string) : bool :=
  forallb (fun c => negb (Regex.is_meta c)) (Text.chars term).

(** The test the store runs for a search text that compiles to [r]. *)
Definition any_field (r : Regex.regex) (b : Book) : bool :=
  Regex.test r (title b) || Regex.test r (author b)
  || Regex.test r (description b).

(** A run of characters that does not start with white space. *)
Definition no_lead (l : list ascii) : Prop :=
  match l with
  | [] => True
  | c :: _ => Text.is_space c = false
  end.

Definition is_fs_event (e : Event) : bool :=
  match e with
  | FsWrite _ | FsRemove _ | FsUnlink _ => true
  | _ => false
  end.

(** The books of a list answer (none for any other answer). *)
Definition listing_data (r : Response) : list Book :=
  match body r with
  | Listing data _ => data
  | _ => []
  end.

(** Two worlds that differ at most in their traces. *)
Definition same_state (w w' : World) : Prop :=
  books w' = books w /\ files w' = files w /\ next_oid w' = next_oid w /\
  db_fault w' = db_fault w /\ unlink_denied w' = unlink_denied w.

Definition is_read_event (e : Event) : bool :=
  match e with
  | DbFindById _ | DbCount | DbFind _ _ => true
  | _ => false
  end.

Definition is_digit (c : ascii) : bool :=
  (48 <=? Text.code c) && (Text.code c <=? 57).

(** A run of characters that does not start with a decimal digit. *)
Definition no_lead_digit (l : list ascii) : Prop :=
  match l with
  | [] => True
  | c :: _ => is_digit c = false
  end.

(** The clean-up both failure paths of the create route perform:
    [if (req.file) fs.unlink(req.file.path, ...)]. *)
Definition cleanup (file : option File) : M unit :=
  match file with
  | Some f => unlink (path f) "Error deleting file:"
  | None => ret tt
  end.




(** The books a cursor hands over for a limit that is not zero: that
    many, or for a negative limit its absolute value, at most one
    batch. *)
Definition limited (lim : Z) (l : list Book) : list Book :=
  if lim <? 0 then firstn (Z.to_nat (Z.min (- lim) first_batch)) l
  else firstn (Z.to_nat lim) l.

(* ================================================================== *)
(** * Properties *)

(** ** Numbers *)

Module JsNumFacts.
Import JsNum.

Lemma double_round_small (z : Z) :
  Z.abs z <= 2 ^ 53 -> double_round z = z.
Proof.
  intros H. unfold double_round.
  destruct (Z.ltb_spec (Z.abs z) (2 ^ 53)) as [Hlt|Hge]; [reflexivity|].
  assert (Ha : Z.abs z = 2 ^ 53) by lia.
  rewrite Ha.
  replace (Z.sgn z * _) with (Z.sgn z * 2 ^ 53) by (f_equal; vm_compute; reflexivity).
  rewrite <- Ha, Z.mul_comm. apply Z.abs_sgn.
Qed.

Lemma double_round_sgn (z : Z) : Z.sgn (double_round z) = Z.sgn z.
Proof.
  unfold double_round.
  destruct (Z.ltb_spec (Z.abs z) (2 ^ 53)) as [Hlt|Hge]; [reflexivity|].
  set (a := Z.abs z) in *.
  assert (Hapos : 0 < a) by (assert (0 < 2 ^ 53) by reflexivity; lia).
  pose proof (Z.log2_spec a Hapos) as [Hlo Hhi].
  assert (He : 1 <= Z.log2 a - 52).
  { destruct (Z.le_gt_cases 53 (Z.log2 a)) as [H|H]; [lia|].
    assert (Z.succ (Z.log2 a) <= 53) by lia.
    pose proof (Z.pow_le_mono_r 2 _ _ ltac:(lia) H0). lia. }
  set (e := Z.log2 a - 52) in *.
  assert (Hpe : 0 < 2 ^ e) by (apply Z.pow_pos_nonneg; lia).
  assert (Hle : 2 ^ e <= a).
  { pose proof (Z.pow_le_mono_r 2 e (Z.log2 a) ltac:(lia) ltac:(lia)). lia. }
  assert (Hq : 1 <= a / 2 ^ e)
    by (apply Z.div_le_lower_bound; lia).
  set (q := a / 2 ^ e) in *.
  match goal with
  | |- context [if ?c then q + 1 else q] =>
      assert (Hq' : 1 <= (if c then q + 1 else q)) by (destruct c; lia);
      set (q' := if c then q + 1 else q) in *
  end.
  rewrite Z.sgn_mul, (Z.sgn_pos (q' * 2 ^ e)) by nia.
  rewrite Z.sgn_sgn. lia.
Qed.

Lemma double_round_nonneg (z : Z) : 0 <= z -> 0 <= double_round z.
Proof.
  intros H. pose proof (double_round_sgn z) as Hs.
  destruct (Z.sgn_spec (double_round z)) as [[? ?]|[[? ?]|[? ?]]];
    destruct (Z.sgn_spec z) as [[? ?]|[[? ?]|[? ?]]]; lia.
Qed.

Lemma double_round_neg (z : Z) : z < 0 -> double_round z < 0.
Proof.
  intros H. pose proof (double_round_sgn z) as Hs.
  destruct (Z.sgn_spec (double_round z)) as [[? ?]|[[? ?]|[? ?]]];
    destruct (Z.sgn_spec z) as [[? ?]|[[? ?]|[? ?]]]; lia.
Qed.

Lemma mul_sgn (a b : Z) : Z.sgn (mul a b) = Z.sgn a * Z.sgn b.
Proof. unfold mul. now rewrite double_round_sgn, Z.sgn_mul. Qed.

Lemma sub_sgn (a b : Z) : Z.sgn (sub a b) = Z.sgn (a - b).
Proof. unfold sub. apply double_round_sgn. Qed.

(** The skip has the sign of the exact product. *)
Lemma skip_sgn (page limit : Z) :
  Z.sgn (mul (sub page 1) limit) = Z.sgn ((page - 1) * limit).
Proof. now rewrite mul_sgn, sub_sgn, Z.sgn_mul. Qed.


End JsNumFacts.

(** ** Decimal texts read back by [parseInt] *)

Module NumeralFacts.
Import Text JsNum.




Lemma to_uint_nonnil (n : N) : N.to_uint n <> Decimal.Nil.
Proof.
  destruct n as [|q]; [discriminate|].
  apply DecimalPos.Unsigned.to_uint_nonnil.
Qed.















End NumeralFacts.

(** ** Page and limit *)

Lemma or_default_spec (x : option Z) (d : Z) :
  JsNum.or_default x d =
  match x with
  | Some n => if n =? 0 then d else n
  | None => d
  end.
Proof.
  destruct x as [n|]; [|reflexivity].
  destruct n; reflexivity.
Qed.

(** C2.  The handler puts no bound on the page or the limit: the query
    [?limit=500] over a collection of 101 books is answered with all 101
    of them and reports limit 500, and [?page=-3] and [?limit=-5] are
    taken as page -3 and limit -5. *)
Theorem page_limit_unbounded :
  limit_of (mkQuery None (Some "500") None None None) = 500 /\
  (exists data pg w',
     list_books (mkQuery None (Some "500") None None None)
                (with_books (shelf 101) world0)
     = Some (mkResponse 200 (Listing data pg), w') /\
     List.length data = 101%nat /\ limit pg = 500) /\
  page_of (mkQuery (Some "-3") None None None None) = -3 /\
  limit_of (mkQuery None (Some "-5") None None None) = -5.
Proof.
  split; [reflexivity|]. split; [|split; reflexivity].
  eexists _, _, _. split; [vm_compute; reflexivity|].
  split; reflexivity.
Qed.

(** ** Sort field and direction *)

Lemma sortOrder_asc_or_desc (q : Query) :
  sortOrder_of q = 1 \/ sortOrder_of q = -1.
Proof.
  unfold sortOrder_of. destruct (q_sortOrder q) as [s|]; [|now right].
  destruct (String.eqb s "asc"); [now left | now right].
Qed.

Lemma sort_defaults (q : Query) :
  (q_sortBy q = None -> sortBy_of q = "createdAt") /\
  (q_sortOrder q = None -> sortOrder_of q = -1).
Proof.
  unfold sortBy_of, sortOrder_of. split; intros ->; reflexivity.
Qed.

(** C5.  The sort field is whatever text the request gives: with
    [?sortBy=description&sortOrder=asc] the field handed to the store is
    "description", and the two books come back ordered by description,
    the reverse of their order by title, author or either timestamp. *)
Theorem sort_field_unrestricted :
  let q := mkQuery None None None (Some "description") (Some "asc") in
  let by_field f := mkQuery None None None (Some f) (Some "asc") in
  let listed q' :=
    match list_books q' (with_books [gatsby; ulysses] world0) with
    | Some (mkResponse _ (Listing data _), _) => data
    | _ => []
    end in
  sortBy_of q = "description" /\
  listed q = [ulysses; gatsby] /\
  listed (by_field "title") = [gatsby; ulysses] /\
  listed (by_field "author") = [gatsby; ulysses] /\
  listed (by_field "createdAt") = [gatsby; ulysses] /\
  listed (by_field "updatedAt") = [gatsby; ulysses].
Proof.
  cbv zeta. repeat split; vm_compute; reflexivity.
Qed.

(** ** Field validation on create *)

Lemma path_errors_nil (name : string) (max : Z) (v : string) :
  path_errors name max v = [] ->
  1 <= Text.len (Text.trim v) <= max.
Proof.
  unfold path_errors.
  destruct (Z.eqb_spec (Text.len (Text.trim v)) 0); [discriminate|].
  destruct (Z.ltb_spec max (Text.len (Text.trim v))); [discriminate|].
  intros _. unfold Text.len in *. lia.
Qed.

Lemma save_ok_bounds (d : BookData) (w w' : World) (b : Book) :
  save d w = (Ok b, w') ->
  1 <= Text.len (title b) <= 200 /\
  1 <= Text.len (author b) <= 100 /\
  1 <= Text.len (description b) <= 1000.
Proof.
  unfold save. destruct (schema_errors d) eqn:He; [|discriminate].
  unfold schema_errors in He.
  apply app_eq_nil in He as [Ht He]. apply app_eq_nil in He as [Ha Hd].
  unfold bind, get, emit, set_books, ret. cbn [fst snd db_fault].
  destruct (db_fault w); [discriminate|].
  intros H.
  assert (Hb : b = mkBook (oid (next_oid w)) (Text.trim (d_title d))
                     (Text.trim (d_author d)) (Text.trim (d_description d))
                     (d_image d) (now w) (now w)) by congruence.
  rewrite Hb. cbn [title author description].
  apply path_errors_nil in Ht, Ha, Hd. auto.
Qed.

Lemma handleValidationErrors_eq (errors : list FieldError)
    (file : option File) (w : World) :
  handleValidationErrors errors file w =
  match errors with
  | [] => (None, w)
  | _ :: _ =>
      (Some (mkResponse 400 (Invalid "Validation failed" errors)),
       snd (cleanup file w))
  end.
Proof.
  unfold handleValidationErrors, cleanup. destruct errors; [reflexivity|].
  unfold bind, ret.
  destruct file; [destruct (unlink _ _ w)|]; reflexivity.
Qed.

Lemma create_book_eq (t a d : string) (file : option File) (w : World) :
  create_book (t, a, d) file w =
  let bookData :=
    mkBookData t a d
      (match file with
       | Some f => Some ("/uploads/" ++ filename f)
       | None => None
       end) in
  match save bookData w with
  | (Ok savedBook, w1) =>
      (mkResponse 201 (Created "Book added successfully" savedBook), w1)
  | (Throw error, w1) =>
      (match error with
       | ValidationError errs => mkResponse 400 (Invalid "Validation error" errs)
       | _ => mkResponse 500
                (Failure "Internal server error" (exn_message error))
       end, snd (cleanup file w1))
  end.
Proof.
  unfold create_book, cleanup, bind. cbv zeta.
  destruct (save _ w) as [[sb|e] w1]; [reflexivity|].
  unfold ret.
  destruct file; [destruct (unlink _ _ w1)|]; destruct e; reflexivity.
Qed.

(** What the schema does guarantee of a created book: its three texts are
    not empty and respect the upper bounds. *)
Lemma created_book_bounds (req : CreateRequest) (w w' : World)
    (m : string) (b : Book) :
  post_books req w = (mkResponse 201 (Created m b), w') ->
  1 <= Text.len (title b) <= 200 /\
  1 <= Text.len (author b) <= 100 /\
  1 <= Text.len (description b) <= 1000.
Proof.
  unfold post_books, bind.
  destruct (upload_single (upload req) w) as [[file|e] w1].
  2:{ unfold ret, error_handler. destruct e as [c ?| |];
      try destruct (String.eqb c "LIMIT_FILE_SIZE"); discriminate. }
  destruct (addBookValidation req) as [errors [[t a] d]].
  rewrite handleValidationErrors_eq.
  destruct errors; [|discriminate].
  rewrite create_book_eq. cbv zeta.
  destruct (save _ w1) as [[sb|e] w3] eqn:Hs.
  - unfold ret. intros H.
    assert (sb = b) by congruence. subst sb.
    eapply save_ok_bounds; eauto.
  - destruct e; discriminate.
Qed.

(** C4.  The length check runs on the description as sent and the trim
    comes after it: a description of three letters followed by seven
    spaces passes the check, and the book is stored with the
    three-letter description. *)
Theorem description_checked_before_trim :
  let req := mkCreateRequest (Some "The Great Gatsby")
               (Some "F. Scott Fitzgerald") (Some "abc       ") None in
  fst (addBookValidation req) = [] /\
  exists b w',
    post_books req world0
    = (mkResponse 201 (Created "Book added successfully" b), w') /\
    books w' = [b] /\
    description b = "abc" /\
    Text.len (description b) = 3.
Proof.
  cbv zeta. split; [reflexivity|].
  eexists _, _. split; [vm_compute; reflexivity|].
  repeat split.
Qed.

(** ** Upload filter and size limit *)

Lemma mem_head (p : string) (l : list string) : mem p (p :: l) = true.
Proof. unfold mem. cbn [existsb]. rewrite String.eqb_refl. reflexivity. Qed.

Lemma mem_remove_path (p : string) (l : list string) :
  mem p (remove_path p l) = false.
Proof.
  unfold mem, remove_path. induction l as [|x l IH]; [reflexivity|].
  cbn [filter]. destruct (String.eqb p x) eqn:E; cbn [negb]; [exact IH|].
  cbn [existsb]. rewrite E. exact IH.
Qed.

Lemma post_books_not_image (req : CreateRequest) (u : Upload) (w : World) :
  upload req = Some u ->
  Text.startsWith (mimetype u) "image/" = false ->
  post_books req w =
  (mkResponse 500
     (Failure "Something went wrong!" "Only image files are allowed!"), w).
Proof.
  intros Hu Hm. unfold post_books, bind, upload_single, fileFilter.
  rewrite Hu, Hm. reflexivity.
Qed.

(** C8.  A file that is not an image is turned away by the filter before
    anything is written or saved (the world is left as it was), but the
    error handler answers it with status 500, the status it gives to any
    error other than the size limit. *)
Theorem non_image_upload_status :
  let req := mkCreateRequest (Some "The Great Gatsby")
               (Some "F. Scott Fitzgerald") (Some "A portrait of the Jazz Age")
               (Some (mkUpload "notes.pdf" "application/pdf" 2048)) in
  post_books req world0 =
  (mkResponse 500
     (Failure "Something went wrong!" "Only image files are allowed!"),
   world0) /\
  error_handler (Error "Only image files are allowed!") =
  mkResponse 500
    (Failure "Something went wrong!" "Only image files are allowed!") /\
  status (error_handler (MulterError "LIMIT_FILE_SIZE" "File too large")) = 400.
Proof.
  cbv zeta. repeat split.
Qed.

Lemma upload_single_image (u : Upload) (w : World) :
  Text.startsWith (mimetype u) "image/" = true ->
  let p := "uploads/" ++ fst (storage_filename u w) in
    upload_single (Some u) w =
    if fileSize <? size u then
      (Throw (MulterError "LIMIT_FILE_SIZE" "File too large"),
       mkWorld (books w) (db_fault w) (remove_path p (files w))
               (unlink_denied w) (now w) (random w) (next_oid w)
               (trace w ++ [FsWrite p; FsRemove p])%list (pending w) (tie_rank w))
    else
      (Ok (Some (mkFile (fst (storage_filename u w)) p)),
       mkWorld (books w) (db_fault w) (p :: files w)
               (unlink_denied w) (now w) (random w) (next_oid w)
               (trace w ++ [FsWrite p])%list (pending w) (tie_rank w)).
Proof.
  intros Hm p. subst p.
  unfold upload_single, fileFilter. rewrite Hm.
  cbv [bind storage_filename get ret emit set_files fst snd
       books db_fault files unlink_denied now random next_oid trace
       pending tie_rank].
  destruct (fileSize <? size u); [|reflexivity].
  rewrite <- app_assoc. reflexivity.
Qed.


Lemma post_books_too_large (req : CreateRequest) (u : Upload) (w : World) :
  upload req = Some u ->
  Text.startsWith (mimetype u) "image/" = true ->
  fileSize < size u ->
  let p := "uploads/" ++ fst (storage_filename u w) in
  post_books req w =
  (mkResponse 400 (Message "File too large. Maximum size is 5MB."),
   mkWorld (books w) (db_fault w) (remove_path p (files w))
     (unlink_denied w) (now w) (random w) (next_oid w)
     (trace w ++ [FsWrite p; FsRemove p])%list (pending w) (tie_rank w)).
Proof.
  intros Hu Hm Hs. cbv zeta.
  pose proof (upload_single_image u w Hm) as Hp. cbv zeta in Hp.
  unfold post_books, bind. rewrite Hu, Hp.
  apply Z.ltb_lt in Hs. rewrite Hs. reflexivity.
Qed.




(** ** Lookup by identifier *)

Lemma hex_not_prefix_letter (c : ascii) :
  is_hex c = true ->
  Ascii.eqb (Text.lower_ascii c) "x" || Ascii.eqb (Text.lower_ascii c) "h"
  = false.
Proof.
  destruct c as [[] [] [] [] [] [] [] []]; intros H;
    try reflexivity; vm_compute in H; discriminate H.
Qed.

Lemma hex_body_hex (l : list ascii) :
  forallb is_hex l = true -> hex_body l = l.
Proof.
  destruct l as [|c0 [|c t]]; [reflexivity | |].
  - intros _. destruct c0 as [[] [] [] [] [] [] [] []]; reflexivity.
  - cbn [forallb]. intros H.
    apply andb_true_iff in H as [_ H]. apply andb_true_iff in H as [H _].
    pose proof (hex_not_prefix_letter c H) as Hc.
    destruct c0 as [[] [] [] [] [] [] [] []]; try reflexivity.
    cbn [hex_body]. rewrite Hc. reflexivity.
Qed.

(** Every text that casts to an ObjectId passes the check of the
    route. *)
Lemma is_object_id_isMongoId (id : string) :
  is_object_id id = true -> isMongoId id = true.
Proof.
  unfold is_object_id, isMongoId, isHexadecimal. intros H.
  apply andb_true_iff in H as [Hlen Hhex].
  rewrite (hex_body_hex _ Hhex), Hlen, andb_true_r.
  destruct (Text.chars id) as [|c t] eqn:E; [|exact Hhex].
  unfold Text.len in Hlen. unfold Text.chars in E.
  rewrite <- (string_of_list_ascii_of_string id), E in Hlen.
  discriminate Hlen.
Qed.

Lemma findById_eq (id : string) (w : World) :
  is_object_id id = true ->
  db_fault w = None ->
  findById id w =
  (Ok (find (fun b => oid_eqb (_id b) id) (books w)),
   mkWorld (books w) (db_fault w) (files w) (unlink_denied w)
           (now w) (random w) (next_oid w)
           (trace w ++ [DbFindById id])%list (pending w) (tie_rank w)).
Proof.
  intros Hid Hdb. unfold findById. rewrite Hid.
  destruct w as [bs df fs ud nw rn no tr pd tk]. cbn [db_fault] in Hdb. subst df.
  reflexivity.
Qed.

Lemma findById_fault (id : string) (w : World) (m : string) :
  is_object_id id = true ->
  db_fault w = Some m ->
  fst (findById id w) = Throw (Error m).
Proof.
  intros Hid Hdb. unfold findById. rewrite Hid.
  destruct w as [bs df fs ud nw rn no tr pd tk]. cbn [db_fault] in Hdb. subst df.
  reflexivity.
Qed.

Lemma findById_cast (id : string) (w : World) :
  is_object_id id = false ->
  findById id w = (Throw (Error (cast_error id)), w).
Proof. intros Hid. unfold findById. rewrite Hid. reflexivity. Qed.

Lemma get_book_valid (id : string) (w : World) :
  isMongoId id = true ->
  get_book id w =
  (match fst (findById id w) with
   | Ok None => mkResponse 404 (Message "Book not found")
   | Ok (Some book) => mkResponse 200 (Found book)
   | Throw error =>
       mkResponse 500 (Failure "Internal server error" (exn_message error))
   end, snd (findById id w)).
Proof.
  intros Hid. unfold get_book, bind.
  rewrite handleValidationErrors_eq. unfold getBookValidation. rewrite Hid.
  destruct (findById id w) as [[[b|]|e] w1]; reflexivity.
Qed.

Lemma get_book_invalid (id : string) (w : World) :
  isMongoId id = false ->
  get_book id w =
  (mkResponse 400
     (Invalid "Validation failed"
        [mkFieldError "id" "Invalid book ID format"]), w).
Proof.
  intros Hid. unfold get_book, bind.
  rewrite handleValidationErrors_eq. unfold getBookValidation.
  rewrite Hid. reflexivity.
Qed.

Lemma get_book_cast (id : string) (w : World) :
  isMongoId id = true ->
  is_object_id id = false ->
  get_book id w =
  (mkResponse 500 (Failure "Internal server error" (cast_error id)), w).
Proof.
  intros Hid Hoid.
  rewrite (get_book_valid id w Hid), (findById_cast id w Hoid).
  reflexivity.
Qed.

(** C6.  The check of the route lets through a text that is no store
    identifier: [0x] followed by 22 hexadecimal digits has 24 characters
    and passes [isMongoId], the cast to an ObjectId then fails in the
    lookup, and the request is answered 500 with the message of the cast
    error instead of the 400 of a malformed identifier.  The store is not
    asked and the world is as it was. *)
Theorem prefixed_id_passes_validation :
  let id := "0x1234567890abcdef123456" in
  let w := with_books [gatsby; ulysses] world0 in
  Text.len id = 24 /\
  getBookValidation id = [] /\
  is_object_id id = false /\
  get_book id w =
  (mkResponse 500 (Failure "Internal server error" (cast_error id)), w) /\
  status (fst (get_book id w)) <> 400 /\
  get_book "not-an-id" w =
  (mkResponse 400
     (Invalid "Validation failed"
        [mkFieldError "id" "Invalid book ID format"]), w).
Proof.
  cbv zeta. split; [reflexivity|]. split; [reflexivity|].
  split; [reflexivity|].
  assert (H : get_book "0x1234567890abcdef123456"
                (with_books [gatsby; ulysses] world0) =
              (mkResponse 500
                 (Failure "Internal server error"
                    (cast_error "0x1234567890abcdef123456")),
               with_books [gatsby; ulysses] world0))
    by (apply get_book_cast; reflexivity).
  split; [exact H|]. split; [rewrite H; discriminate|].
  apply get_book_invalid. reflexivity.
Qed.

(** The lookup route on the rest of its inputs.  A text the check
    refuses is answered 400 "Validation failed" with the error "Invalid
    book ID format" and the world is untouched (no lookup is made).  For
    a text of 24 hexadecimal digits, with the store answering, one lookup
    is made and the answer is 404 "Book not found" when no book has that
    identifier and otherwise 200 with a book that has it.  A text that
    passes the check and is no ObjectId is answered 500 with the cast
    error. *)
Theorem get_book_outcomes (id : string) (w : World) :
  (isMongoId id = false ->
     get_book id w =
     (mkResponse 400
        (Invalid "Validation failed"
           [mkFieldError "id" "Invalid book ID format"]), w)) /\
  (is_object_id id = true -> db_fault w = None ->
     (forall b, In b (books w) -> oid_eqb (_id b) id = false) ->
     fst (get_book id w) = mkResponse 404 (Message "Book not found")) /\
  (is_object_id id = true -> db_fault w = None ->
     (exists b, In b (books w) /\ oid_eqb (_id b) id = true) ->
     exists b, In b (books w) /\ oid_eqb (_id b) id = true /\
               fst (get_book id w) = mkResponse 200 (Found b)) /\
  (is_object_id id = true -> db_fault w = None ->
     trace (snd (get_book id w)) = (trace w ++ [DbFindById id])%list) /\
  (isMongoId id = true -> is_object_id id = false ->
     get_book id w =
     (mkResponse 500 (Failure "Internal server error" (cast_error id)), w)).
Proof.
  split; [apply get_book_invalid|]. split; [|split; [|split]].
  - intros Hoid Hdb Hnone.
    rewrite (get_book_valid id w (is_object_id_isMongoId id Hoid)).
    rewrite (findById_eq id w Hoid Hdb). cbn [fst].
    destruct (find _ (books w)) as [b|] eqn:Hf; [|reflexivity].
    apply find_some in Hf as [Hin Heq].
    rewrite (Hnone b Hin) in Heq. discriminate.
  - intros Hoid Hdb [b0 [Hin0 Heq0]].
    rewrite (get_book_valid id w (is_object_id_isMongoId id Hoid)).
    rewrite (findById_eq id w Hoid Hdb). cbn [fst].
    destruct (find _ (books w)) as [b|] eqn:Hf.
    + apply find_some in Hf as [Hin Heq]. exists b. auto.
    + apply (find_none _ _ Hf) in Hin0. cbv beta in Hin0.
      rewrite Heq0 in Hin0. discriminate.
  - intros Hoid Hdb.
    rewrite (get_book_valid id w (is_object_id_isMongoId id Hoid)).
    rewrite (findById_eq id w Hoid Hdb). reflexivity.
  - apply get_book_cast.
Qed.

Lemma get_book_outcomes_witness :
  fst (get_book "not-an-id" (with_books [gatsby; ulysses] world0)) =
  mkResponse 400
    (Invalid "Validation failed" [mkFieldError "id" "Invalid book ID format"]) /\
  fst (get_book (oid 7) (with_books [gatsby; ulysses] world0)) =
  mkResponse 404 (Message "Book not found") /\
  (exists b, fst (get_book (oid 1) (with_books [gatsby; ulysses] world0)) =
             mkResponse 200 (Found b)) /\
  status (fst (get_book "0h1234567890ABCDEF123456"
                 (with_books [gatsby; ulysses] world0))) = 500.
Proof.
  split; [|split; [|split]].
  - destruct (get_book_outcomes "not-an-id"
                (with_books [gatsby; ulysses] world0)) as (H & _).
    rewrite (H eq_refl). reflexivity.
  - destruct (get_book_outcomes (oid 7)
                (with_books [gatsby; ulysses] world0)) as (_ & H & _).
    apply H; [reflexivity | reflexivity |].
    intros b [<- | [<- | []]]; reflexivity.
  - destruct (get_book_outcomes (oid 1)
                (with_books [gatsby; ulysses] world0)) as (_ & _ & H & _).
    destruct H as [b (_ & _ & Hb)]; [reflexivity | reflexivity | |].
    + exists ulysses. split; [right; left; reflexivity | reflexivity].
    + exists b. exact Hb.
  - destruct (get_book_outcomes "0h1234567890ABCDEF123456"
                (with_books [gatsby; ulysses] world0)) as (_ & _ & _ & _ & H).
    rewrite (H eq_refl eq_refl). reflexivity.
Defined.

(** ** Clean-up of the upload when a create fails *)

Lemma unlink_eq (p label : string) (w : World) :
  unlink p label w =
  (tt,
   mkWorld (books w) (db_fault w) (files w) (unlink_denied w)
           (now w) (random w) (next_oid w)
           (trace w ++ [FsUnlink p])%list
           (pending w ++ [(p, label)])%list (tie_rank w)).
Proof.
  destruct w as [bs df fs ud nw rn no tr pd tk]. reflexivity.
Qed.

Lemma complete_eq (p label : string) (w : World) :
  complete (p, label) w =
  (tt,
   if unlink_denied w || negb (mem p (files w)) then
     mkWorld (books w) (db_fault w) (files w) (unlink_denied w)
             (now w) (random w) (next_oid w)
             (trace w ++ [ConsoleError label])%list (pending w) (tie_rank w)
   else
     mkWorld (books w) (db_fault w) (remove_path p (files w))
             (unlink_denied w) (now w) (random w) (next_oid w)
             (trace w) (pending w) (tie_rank w)).
Proof.
  destruct w as [bs df fs ud nw rn no tr pd tk].
  unfold complete, bind, get.
  cbn [unlink_denied files books db_fault now random next_oid trace pending
       tie_rank].
  destruct (ud || negb (mem p fs)); reflexivity.
Qed.

Lemma complete_all_cons (op : string * string) (ops : list (string * string))
    (w : World) :
  complete_all (op :: ops) w = complete_all ops (snd (complete op w)).
Proof.
  cbn [complete_all]. unfold bind. destruct (complete op w). reflexivity.
Qed.

(** Completions leave the collection alone. *)
Lemma complete_all_frame (ops : list (string * string)) :
  forall w,
    books (snd (complete_all ops w)) = books w /\
    unlink_denied (snd (complete_all ops w)) = unlink_denied w /\
    db_fault (snd (complete_all ops w)) = db_fault w /\
    next_oid (snd (complete_all ops w)) = next_oid w.
Proof.
  induction ops as [|[p l] ops IH]; intros w; [repeat split|].
  rewrite complete_all_cons, complete_eq. cbn [snd].
  match goal with
  | |- context [complete_all ops ?w1] =>
      destruct (IH w1) as (Hb & Hu & Hd & Hn)
  end.
  rewrite Hb, Hu, Hd, Hn.
  destruct (unlink_denied w || negb (mem p (files w))); repeat split.
Qed.

(** With removals refused every completion only writes its line to the
    console. *)
Lemma complete_all_denied (ops : list (string * string)) :
  forall w,
    unlink_denied w = true ->
    files (snd (complete_all ops w)) = files w /\
    trace (snd (complete_all ops w)) =
    (trace w ++ map (fun op => ConsoleError (snd op)) ops)%list.
Proof.
  induction ops as [|[p l] ops IH]; intros w Hd.
  - cbn [complete_all ret snd map]. now rewrite app_nil_r.
  - rewrite complete_all_cons, complete_eq. cbn [snd]. rewrite Hd.
    cbn [orb].
    match goal with
    | |- context [complete_all ops ?w1] =>
        destruct (IH w1 eq_refl) as [Hf Ht]; rewrite Hf, Ht
    end.
    cbn [files trace map snd]. rewrite <- app_assoc. split; reflexivity.
Qed.

Lemma mem_remove_other (p x : string) (l : list string) :
  mem p l = false -> mem p (remove_path x l) = false.
Proof.
  unfold mem, remove_path. induction l as [|y l IH]; [reflexivity|].
  cbn [existsb filter]. intros H. apply orb_false_iff in H as [Hy Hl].
  destruct (negb (String.eqb x y)); [|exact (IH Hl)].
  cbn [existsb]. rewrite Hy. exact (IH Hl).
Qed.

(** A path that is not on the disk is not there after completions
    either: a completion only takes files away. *)
Lemma complete_all_absent (p : string) (ops : list (string * string)) :
  forall w,
    mem p (files w) = false ->
    mem p (files (snd (complete_all ops w))) = false.
Proof.
  induction ops as [|[x l] ops IH]; intros w H; [exact H|].
  rewrite complete_all_cons, complete_eq. cbn [snd]. apply IH.
  destruct (unlink_denied w || negb (mem x (files w))); cbn [files];
    [exact H | now apply mem_remove_other].
Qed.

(** With removals allowed, a path whose removal was asked for is gone
    once the removals are completed. *)
Lemma complete_all_removes (p label : string) (ops : list (string * string)) :
  forall w,
    unlink_denied w = false ->
    In (p, label) ops ->
    mem p (files (snd (complete_all ops w))) = false.
Proof.
  induction ops as [|[x l] ops IH]; intros w Hd Hin; [destruct Hin|].
  rewrite complete_all_cons, complete_eq. cbn [snd].
  destruct Hin as [Heq | Hin].
  - injection Heq as -> ->. apply complete_all_absent.
    rewrite Hd. cbn [orb].
    destruct (mem p (files w)) eqn:Hm; cbn [negb files];
      [apply mem_remove_path | exact Hm].
  - apply IH; [|exact Hin].
    destruct (unlink_denied w || negb (mem x (files w))); exact Hd.
Qed.

Lemma settle_eq (w : World) :
  settle w =
  snd (complete_all (pending w)
         (mkWorld (books w) (db_fault w) (files w) (unlink_denied w)
                  (now w) (random w) (next_oid w) (trace w) [] (tie_rank w))).
Proof.
  unfold settle, bind, set_pending.
  destruct (complete_all (pending w) _). reflexivity.
Qed.

Lemma settle_books (w : World) : books (settle w) = books w.
Proof.
  rewrite settle_eq.
  match goal with
  | |- context [complete_all ?ops ?w1] =>
      destruct (complete_all_frame ops w1) as (H & _)
  end.
  exact H.
Qed.

Lemma settle_removes (p label : string) (w : World) :
  unlink_denied w = false ->
  In (p, label) (pending w) ->
  mem p (files (settle w)) = false.
Proof.
  intros Hd Hin. rewrite settle_eq.
  apply (complete_all_removes p label); [exact Hd | exact Hin].
Qed.

Lemma settle_denied (w : World) :
  unlink_denied w = true ->
  files (settle w) = files w /\
  trace (settle w) =
  (trace w ++ map (fun op => ConsoleError (snd op)) (pending w))%list.
Proof.
  intros Hd. rewrite settle_eq.
  match goal with
  | |- context [complete_all ?ops ?w1] =>
      destruct (complete_all_denied ops w1 Hd) as [Hf Ht]
  end.
  rewrite Hf, Ht. split; reflexivity.
Qed.

Lemma save_eq (d : BookData) (w : World) :
  save d w =
  match schema_errors d with
  | (_ :: _) as errs => (Throw (ValidationError errs), w)
  | [] =>
      let b := mkBook (oid (next_oid w)) (Text.trim (d_title d))
                 (Text.trim (d_author d)) (Text.trim (d_description d))
                 (d_image d) (now w) (now w) in
      match db_fault w with
      | Some m =>
          (Throw (Error m),
           mkWorld (books w) (db_fault w) (files w) (unlink_denied w)
                   (now w) (random w) (next_oid w)
                   (trace w ++ [DbInsert b])%list (pending w) (tie_rank w))
      | None =>
          (Ok b,
           mkWorld (books w ++ [b])%list (db_fault w) (files w)
                   (unlink_denied w) (now w) (random w) (next_oid w + 1)%N
                   (trace w ++ [DbInsert b])%list (pending w) (tie_rank w))
      end
  end.
Proof.
  unfold save. destruct (schema_errors d); [|reflexivity].
  destruct w as [bs df fs ud nw rn no tr pd tk].
  unfold bind, emit, get, set_books, ret.
  cbn [fst snd books db_fault files unlink_denied now random next_oid trace
       pending tie_rank].
  destruct df; reflexivity.
Qed.

Lemma post_books_with_file (req : CreateRequest) (u : Upload) (w : World) :
  upload req = Some u ->
  Text.startsWith (mimetype u) "image/" = true ->
  size u <= fileSize ->
  let name := fst (storage_filename u w) in
  let p := "uploads/" ++ name in
  let w1 := mkWorld (books w) (db_fault w) (p :: files w) (unlink_denied w)
              (now w) (random w) (next_oid w) (trace w ++ [FsWrite p])%list (pending w) (tie_rank w) in
  post_books req w =
  match addBookValidation req with
  | ((_ :: _) as errors, _) =>
      (mkResponse 400 (Invalid "Validation failed" errors),
       snd (unlink p "Error deleting file:" w1))
  | ([], (t, a, d)) =>
      match save (mkBookData t a d (Some ("/uploads/" ++ name))) w1 with
      | (Ok b, w2) =>
          (mkResponse 201 (Created "Book added successfully" b), w2)
      | (Throw e, w2) =>
          (match e with
           | ValidationError errs =>
               mkResponse 400 (Invalid "Validation error" errs)
           | _ => mkResponse 500
                    (Failure "Internal server error" (exn_message e))
           end, snd (unlink p "Error deleting file:" w2))
      end
  end.
Proof.
  intros Hu Hm Hs. cbv zeta.
  pose proof (upload_single_image u w Hm) as Hp. cbv zeta in Hp.
  assert (Hle : (fileSize <? size u) = false) by (apply Z.ltb_ge; exact Hs).
  rewrite Hle in Hp.
  unfold post_books, bind. rewrite Hu, Hp.
  destruct (addBookValidation req) as [errors [[t a] d]].
  rewrite handleValidationErrors_eq.
  destruct errors as [|e errors]; [|reflexivity].
  rewrite create_book_eq. cbv zeta. cbn [filename path cleanup].
  destruct (save _ _) as [[b|e] w2]; reflexivity.
Qed.

Lemma storage_filename_unlink_denied (u : Upload) (d : bool) (w : World) :
  fst (storage_filename u (with_unlink_denied d w)) = fst (storage_filename u w).
Proof. destruct w. reflexivity. Qed.

(** The world a failing create with a stored image leaves behind, in
    each of the three ways to fail. *)
Lemma post_books_failed (req : CreateRequest) (u : Upload) (w : World) :
  upload req = Some u ->
  Text.startsWith (mimetype u) "image/" = true ->
  size u <= fileSize ->
  let name := fst (storage_filename u w) in
  let p := "uploads/" ++ name in
  let errors := fst (addBookValidation req) in
  let fields := snd (addBookValidation req) in
  let data := mkBookData (fst (fst fields)) (snd (fst fields)) (snd fields)
                (Some ("/uploads/" ++ name)) in
  errors <> [] \/ schema_errors data <> [] \/ db_fault w <> None ->
  exists mid,
    snd (post_books req w) =
    mkWorld (books w) (db_fault w) (p :: files w) (unlink_denied w)
            (now w) (random w) (next_oid w)
            (trace w ++ FsWrite p :: mid ++ [FsUnlink p])%list
            (pending w ++ [(p, "Error deleting file:")])%list (tie_rank w) /\
    ((errors <> [] /\ mid = [] /\
      fst (post_books req w) =
      mkResponse 400 (Invalid "Validation failed" errors)) \/
     (errors = [] /\ schema_errors data <> [] /\ mid = [] /\
      fst (post_books req w) =
      mkResponse 400 (Invalid "Validation error" (schema_errors data))) \/
     (errors = [] /\ schema_errors data = [] /\
      exists m b, db_fault w = Some m /\ mid = [DbInsert b] /\
                  fst (post_books req w) =
                  mkResponse 500 (Failure "Internal server error" m))).
Proof.
  intros Hu Hm Hs. cbv zeta.
  rewrite (post_books_with_file req u w Hu Hm Hs). cbv zeta.
  destruct (addBookValidation req) as [[|e errors] [[t a] d]];
    cbn [fst snd].
  - intros [Hf | Hf]; [now elim Hf|].
    rewrite save_eq. cbv zeta.
    destruct (schema_errors _) as [|se ses] eqn:Hse.
    + destruct Hf as [Hf | Hf]; [now elim Hf|].
      cbn [books db_fault files unlink_denied now random next_oid trace
           pending tie_rank].
      destruct (db_fault w) as [m|] eqn:Hdb; [|now elim Hf].
      rewrite unlink_eq. cbn [fst snd].
      cbn [books db_fault files unlink_denied now random next_oid trace
           pending tie_rank].
      eexists [DbInsert _]. split.
      * rewrite <- !app_assoc. reflexivity.
      * right. right. split; [reflexivity|]. split; [reflexivity|].
        eexists _, _. repeat split.
    + rewrite unlink_eq. cbn [fst snd].
      cbn [books db_fault files unlink_denied now random next_oid trace
           pending tie_rank].
      exists []. split.
      * rewrite <- !app_assoc. reflexivity.
      * right. left. split; [reflexivity|]. split; [discriminate|].
        split; reflexivity.
  - intros _. rewrite unlink_eq. cbn [fst snd].
    cbn [books db_fault files unlink_denied now random next_oid trace
         pending tie_rank].
    exists []. split.
    + rewrite <- !app_assoc. reflexivity.
    + left. split; [discriminate|]. split; reflexivity.
Qed.

(** The answer of a create does not depend on whether the file system
    lets files be removed. *)
Lemma post_books_answer_denied (req : CreateRequest) (u : Upload)
    (w : World) (denied : bool) :
  upload req = Some u ->
  Text.startsWith (mimetype u) "image/" = true ->
  size u <= fileSize ->
  fst (post_books req (with_unlink_denied denied w)) = fst (post_books req w).
Proof.
  intros Hu Hm Hs.
  rewrite (post_books_with_file req u _ Hu Hm Hs).
  rewrite (post_books_with_file req u w Hu Hm Hs). cbv zeta.
  rewrite storage_filename_unlink_denied.
  destruct (addBookValidation req) as [[|e errors] [[t a] d]];
    [|reflexivity].
  rewrite !save_eq. cbv zeta.
  destruct (schema_errors _); [|reflexivity].
  destruct w as [bs df fs ud nw rn no tr pd tk].
  cbn [with_unlink_denied books db_fault files unlink_denied now random
       next_oid trace pending tie_rank].
  destruct df; reflexivity.
Qed.

(** C7, as the code has it.  A create request carries an image that the
    upload step stores, and then fails in one of three ways: the request
    validation finds errors (400 "Validation failed"), the schema refuses
    the document (400 "Validation error"), or the store fails (500 with
    the store's message).  In each the handler asks for the removal of the
    stored file as its last action and answers without waiting for it:
    when it answers, the removal is pending.  Once the pending removals
    are completed the file is gone; when the file system refuses, the
    file stays and a line is written to the console.  The answer is the
    same in both cases, and the collection is unchanged. *)
Theorem failed_create_removes_upload
    (req : CreateRequest) (u : Upload) (w : World) :
  upload req = Some u ->
  Text.startsWith (mimetype u) "image/" = true ->
  size u < fileSize ->
  let name := fst (storage_filename u w) in
  let p := "uploads/" ++ name in
  let errors := fst (addBookValidation req) in
  let fields := snd (addBookValidation req) in
  let data := mkBookData (fst (fst fields)) (snd (fst fields)) (snd fields)
                (Some ("/uploads/" ++ name)) in
  let answer := fst (post_books req w) in
  let w' := snd (post_books req w) in
  (errors <> [] ->
     answer = mkResponse 400 (Invalid "Validation failed" errors) /\
     trace w' = (trace w ++ [FsWrite p; FsUnlink p])%list) /\
  (errors = [] -> schema_errors data <> [] ->
     answer = mkResponse 400 (Invalid "Validation error" (schema_errors data)) /\
     trace w' = (trace w ++ [FsWrite p; FsUnlink p])%list) /\
  (errors = [] -> schema_errors data = [] ->
     forall m, db_fault w = Some m ->
     answer = mkResponse 500 (Failure "Internal server error" m) /\
     exists b, trace w' = (trace w ++ [FsWrite p; DbInsert b; FsUnlink p])%list) /\
  (errors <> [] \/ schema_errors data <> [] \/ db_fault w <> None ->
     books w' = books w /\
     pending w' = (pending w ++ [(p, "Error deleting file:")])%list /\
     (unlink_denied w = false ->
        mem p (files (settle w')) = false /\ books (settle w') = books w) /\
     (unlink_denied w = true ->
        files (settle w') = files w' /\
        exists evs,
          trace (settle w') =
          (trace w' ++ evs ++ [ConsoleError "Error deleting file:"])%list) /\
     (forall denied,
        fst (post_books req (with_unlink_denied denied w)) = answer)).
Proof.
  intros Hu Hm Hs name p errors fields data answer w'.
  assert (Hle : size u <= fileSize) by lia.
  pose proof (post_books_failed req u w Hu Hm Hle) as Hfail.
  cbv zeta in Hfail. fold name p errors fields data in Hfail.
  fold answer w' in Hfail.
  split; [|split; [|split]].
  - intros He. destruct (Hfail (or_introl He)) as (mid & Hw & Hc).
    destruct Hc as [(_ & -> & Ha) | [(He' & _) | (He' & _)]];
      try contradiction.
    split; [exact Ha|]. rewrite Hw. reflexivity.
  - intros He Hse.
    destruct (Hfail (or_intror (or_introl Hse))) as (mid & Hw & Hc).
    destruct Hc as [(He' & _) | [(_ & _ & -> & Ha) | (_ & Hse' & _)]];
      try contradiction.
    split; [exact Ha|]. rewrite Hw. reflexivity.
  - intros He Hse m Hdb.
    assert (Hf : db_fault w <> None) by (rewrite Hdb; discriminate).
    destruct (Hfail (or_intror (or_intror Hf))) as (mid & Hw & Hc).
    destruct Hc as [(He' & _) | [(_ & Hse' & _) | (_ & _ & m' & b & Hdb' & -> & Ha)]];
      try contradiction.
    assert (m' = m) by congruence. subst m'.
    split; [exact Ha|]. exists b. rewrite Hw. reflexivity.
  - intros Hf. destruct (Hfail Hf) as (mid & Hw & _).
    rewrite Hw. cbn [books files pending unlink_denied trace].
    split; [reflexivity|]. split; [reflexivity|].
    split; [|split].
    + intros Hd. split.
      * apply (settle_removes p "Error deleting file:"); [exact Hd|].
        cbn [pending]. apply in_or_app. right. left. reflexivity.
      * rewrite settle_books. reflexivity.
    + intros Hd.
      match goal with
      | |- context [settle ?w1] =>
          destruct (settle_denied w1 Hd) as [Hfs Htr]
      end.
      split; [exact Hfs|]. rewrite Htr. cbn [pending trace].
      rewrite map_app. cbn [map snd]. eexists. reflexivity.
    + intros denied. apply (post_books_answer_denied req u w denied Hu Hm Hle).
Qed.

Lemma failed_create_removes_upload_witness :
  let req := mkCreateRequest (Some "The Great Gatsby")
               (Some "F. Scott Fitzgerald") (Some "too short") (Some cover) in
  let w' := snd (post_books req world0) in
  status (fst (post_books req world0)) = 400 /\
  trace w' = [FsWrite "uploads/book-1700000000000-424242.png";
              FsUnlink "uploads/book-1700000000000-424242.png"] /\
  mem "uploads/book-1700000000000-424242.png" (files (settle w')) = false /\
  fst (post_books req (with_unlink_denied true world0)) =
  fst (post_books req world0).
Proof.
  cbv zeta.
  assert (Hs : size cover < fileSize) by (vm_compute; reflexivity).
  pose proof (failed_create_removes_upload
    (mkCreateRequest (Some "The Great Gatsby")
       (Some "F. Scott Fitzgerald") (Some "too short") (Some cover))
    cover world0 eq_refl eq_refl Hs) as (H1 & _ & _ & H4).
  assert (He : fst (addBookValidation
                      (mkCreateRequest (Some "The Great Gatsby")
                         (Some "F. Scott Fitzgerald") (Some "too short")
                         (Some cover))) <> [])
    by (vm_compute; discriminate).
  destruct (H1 He) as [Ha Ht].
  destruct (H4 (or_introl He)) as (_ & _ & Hgone & _ & Hsame).
  split; [rewrite Ha; reflexivity|].
  split; [exact Ht|].
  split; [apply Hgone; reflexivity | apply Hsame].
Defined.

(** C7 as stated does not hold: the handler answers while the removal
    it asked for is pending, and in the course of events modelled here
    (a removal takes effect when the event loop comes round) the uploaded
    file is on the disk when the failing create is answered. *)
Lemma upload_on_disk_when_answered :
  let req := mkCreateRequest (Some "The Great Gatsby")
               (Some "F. Scott Fitzgerald") (Some "too short") (Some cover) in
  let p := "uploads/book-1700000000000-424242.png" in
  status (fst (post_books req world0)) = 400 /\
  mem p (files (snd (post_books req world0))) = true /\
  pending (snd (post_books req world0)) = [(p, "Error deleting file:")].
Proof.
  cbv zeta. repeat split.
Qed.

(** ** Sorting and pagination *)

Lemma filter_all (A : Type) (l : list A) : filter (fun _ => true) l = l.
Proof. induction l as [|x t IH]; cbn [filter]; congruence. Qed.

Lemma in_firstn (A : Type) (n : nat) (l : list A) (x : A) :
  In x (firstn n l) -> In x l.
Proof.
  intros H. rewrite <- (firstn_skipn n l). apply in_or_app. now left.
Qed.

Lemma in_skipn (A : Type) (n : nat) (l : list A) (x : A) :
  In x (skipn n l) -> In x l.
Proof.
  intros H. rewrite <- (firstn_skipn n l). apply in_or_app. now right.
Qed.

Section SortingFacts.
Variable A : Type.
Variable le : A -> A -> bool.
Hypothesis le_total : forall a b, le a b = true \/ le b a = true.

Lemma insert_sorted_perm (x : A) (l : list A) :
  Permutation (insert_sorted le x l) (x :: l).
Proof.
  induction l as [|y t IH]; cbn [insert_sorted]; [reflexivity|].
  destruct (le x y); [reflexivity|].
  rewrite IH. apply perm_swap.
Qed.

Lemma sort_by_perm (l : list A) : Permutation (sort_by le l) l.
Proof.
  induction l as [|x t IH]; cbn [sort_by]; [reflexivity|].
  rewrite insert_sorted_perm. now constructor.
Qed.

Lemma insert_sorted_hd (x y : A) (l : list A) :
  le y x = true ->
  HdRel (fun a b => le a b = true) y l ->
  HdRel (fun a b => le a b = true) y (insert_sorted le x l).
Proof.
  intros Hyx Hl. destruct l as [|z t]; cbn [insert_sorted].
  - now constructor.
  - destruct (le x z); constructor; [exact Hyx|].
    now inversion Hl.
Qed.

Lemma insert_sorted_sorted (x : A) (l : list A) :
  Sorted (fun a b => le a b = true) l ->
  Sorted (fun a b => le a b = true) (insert_sorted le x l).
Proof.
  induction 1 as [|y t Hs IH Hhd]; cbn [insert_sorted].
  - repeat constructor.
  - destruct (le x y) eqn:E.
    + constructor; [now constructor|]. now constructor.
    + constructor; [exact IH|].
      apply insert_sorted_hd; [|exact Hhd].
      destruct (le_total x y) as [H|H]; [congruence|exact H].
Qed.

Lemma sort_by_sorted (l : list A) :
  Sorted (fun a b => le a b = true) (sort_by le l).
Proof.
  induction l as [|x t IH]; cbn [sort_by]; [constructor|].
  now apply insert_sorted_sorted.
Qed.
End SortingFacts.

Lemma value_leb_total (a b : value) :
  value_leb a b = true \/ value_leb b a = true.
Proof.
  destruct a, b; cbn [value_leb type_rank];
    try (left; reflexivity); try (right; reflexivity).
  - apply String.leb_total.
  - apply String.leb_total.
  - destruct (N.leb_spec n n0); [now left|right].
    apply N.leb_le. lia.
Qed.

Lemma sort_leb_total (name : string) (direction : Z) (a b : Book) :
  sort_leb name direction a b = true \/ sort_leb name direction b a = true.
Proof.
  unfold sort_leb. destruct (0 <? direction); apply value_leb_total.
Qed.

Lemma ceil_div_bounds (a b : Z) :
  0 < b ->
  (ceil_div a b - 1) * b < a <= ceil_div a b * b.
Proof.
  intros Hb. unfold ceil_div.
  pose proof (Z.div_mod (- a) b ltac:(lia)) as Hdm.
  pose proof (Z.mod_pos_bound (- a) b Hb) as Hmod.
  nia.
Qed.

Lemma store_leb_total (name : string) (direction : Z) (rank : Book -> Z)
    (a b : Book) :
  store_leb name direction rank a b = true \/
  store_leb name direction rank b a = true.
Proof.
  unfold store_leb.
  destruct (sort_leb name direction a b), (sort_leb name direction b a);
    cbn [andb negb]; auto;
    (destruct (Z.leb_spec (rank a) (rank b)); [now left|right];
     apply Z.leb_le; lia).
Qed.

(** The store's order refines the order of the sort key. *)
Lemma store_leb_sort_leb (name : string) (direction : Z) (rank : Book -> Z)
    (a b : Book) :
  store_leb name direction rank a b = true ->
  sort_leb name direction a b = true.
Proof.
  unfold store_leb.
  destruct (sort_leb_total name direction a b) as [H | H]; rewrite H;
    destruct (sort_leb name direction a b), (sort_leb name direction b a);
    cbn [andb negb]; congruence.
Qed.

Lemma page_of_nonzero (q : Query) : page_of q <> 0.
Proof.
  unfold page_of. rewrite or_default_spec.
  destruct (JsNum.parseInt (q_page q)) as [n|]; [|discriminate].
  destruct (Z.eqb_spec n 0); [discriminate | assumption].
Qed.

Lemma limit_of_nonzero (q : Query) : limit_of q <> 0.
Proof.
  unfold limit_of. rewrite or_default_spec.
  destruct (JsNum.parseInt (q_limit q)) as [n|]; [|discriminate].
  destruct (Z.eqb_spec n 0); [discriminate | assumption].
Qed.

Lemma skip_of_nonneg (q : Query) :
  1 <= page_of q -> 1 <= limit_of q -> 0 <= skip_of q.
Proof.
  intros Hp Hl. unfold skip_of, JsNum.mul, JsNum.sub.
  apply JsNumFacts.double_round_nonneg.
  pose proof (JsNumFacts.double_round_nonneg (page_of q - 1) ltac:(lia)).
  nia.
Qed.

Lemma skip_of_neg (q : Query) :
  (page_of q - 1) * limit_of q < 0 -> skip_of q < 0.
Proof.
  intros H. pose proof (JsNumFacts.skip_sgn (page_of q) (limit_of q)) as Hs.
  fold (skip_of q) in Hs.
  destruct (Z.sgn_spec (skip_of q)) as [[? ?]|[[? ?]|[? ?]]];
    destruct (Z.sgn_spec ((page_of q - 1) * limit_of q))
      as [[? ?]|[[? ?]|[? ?]]]; lia.
Qed.

(** The list handler with the store answering and a skip the store
    accepts. *)
Lemma list_with_eq (p : Book -> bool) (q : Query) (w : World) :
  db_fault w = None ->
  0 <= skip_of q ->
  let total := Z.of_nat (List.length (filter p (books w))) in
  let pages := ceil_div total (limit_of q) in
  list_with p q w =
  (mkResponse 200
     (Listing
        (limited (limit_of q)
           (skipn (Z.to_nat (skip_of q))
              (sort_by (store_leb (sortBy_of q) (sortOrder_of q)
                          (tie_rank w (skip_of q) (limit_of q)))
                 (filter p (books w)))))
        (mkPagination (page_of q) pages total
           (page_of q <? pages) (1 <? page_of q) (limit_of q))),
   mkWorld (books w) (db_fault w) (files w) (unlink_denied w)
           (now w) (random w) (next_oid w)
           (trace w ++ [DbCount; DbFind (skip_of q) (limit_of q)])%list
           (pending w) (tie_rank w)).
Proof.
  intros Hdb Hskip. cbv zeta.
  unfold list_with, countDocuments, find_page, limited. fold (skip_of q).
  destruct w as [bs df fs ud nw rn no tr pd tk]. cbn [db_fault] in Hdb. subst df.
  cbv [bind emit get ret fst snd
       books db_fault files unlink_denied now random next_oid trace
       pending tie_rank].
  assert (Hs : (skip_of q <? 0) = false) by (apply Z.ltb_ge; exact Hskip).
  rewrite Hs.
  assert (Hl : (limit_of q =? 0) = false)
    by (apply Z.eqb_neq; apply limit_of_nonzero).
  rewrite Hl. rewrite <- app_assoc. reflexivity.
Qed.

(** ... and with a skip the store refuses. *)
Lemma list_with_negative (p : Book -> bool) (q : Query) (w : World) :
  db_fault w = None ->
  skip_of q < 0 ->
  list_with p q w =
  (mkResponse 500
     (Failure "Internal server error" "Skip value must be non-negative"),
   mkWorld (books w) (db_fault w) (files w) (unlink_denied w)
           (now w) (random w) (next_oid w)
           (trace w ++ [DbCount; DbFind (skip_of q) (limit_of q)])%list
           (pending w) (tie_rank w)).
Proof.
  intros Hdb Hskip.
  unfold list_with, countDocuments, find_page. fold (skip_of q).
  destruct w as [bs df fs ud nw rn no tr pd tk]. cbn [db_fault] in Hdb. subst df.
  cbv [bind emit get ret fst snd
       books db_fault files unlink_denied now random next_oid trace
       pending tie_rank].
  apply Z.ltb_lt in Hskip. rewrite Hskip.
  rewrite <- app_assoc. reflexivity.
Qed.

(** ... and with the store failing. *)
Lemma list_with_fault (p : Book -> bool) (q : Query) (w : World) (m : string) :
  db_fault w = Some m ->
  list_with p q w =
  (mkResponse 500 (Failure "Internal server error" m),
   mkWorld (books w) (db_fault w) (files w) (unlink_denied w)
           (now w) (random w) (next_oid w)
           (trace w ++ [DbCount])%list (pending w) (tie_rank w)).
Proof.
  intros Hdb. unfold list_with, countDocuments.
  destruct w as [bs df fs ud nw rn no tr pd tk]. cbn [db_fault] in Hdb. subst df.
  reflexivity.
Qed.



(** C3.  Outside the bounds the specification gives for page and limit
    the list route does not behave as a pagination: over 47 books,
    [?limit=-5] is answered with five books, a limit of -5 and -9 pages
    in all, and [?page=-1&limit=10] is answered 500 because the store
    refuses the negative skip. *)
Theorem list_pagination_outside_bounds :
  let w := with_books (shelf 47) world0 in
  (exists data w',
     list_books (mkQuery None (Some "-5") None None None) w =
     Some (mkResponse 200
             (Listing data (mkPagination 1 (-9) 47 false false (-5))), w') /\
     List.length data = 5%nat) /\
  skip_of (mkQuery (Some "-1") (Some "10") None None None) = -20 /\
  (exists message w',
     list_books (mkQuery (Some "-1") (Some "10") None None None) w =
     Some (mkResponse 500 (Failure "Internal server error" message), w')).
Proof.
  cbv zeta. split; [|split].
  - eexists _, _. split; [vm_compute; reflexivity | reflexivity].
  - reflexivity.
  - eexists _, _. vm_compute. reflexivity.
Qed.

(** ** The matcher against its reference semantics *)

Module RegexFacts.
Import Text Regex.

Lemma nullable_lang (r : regex) : nullable r = true <-> lang r [].
Proof.
  induction r; cbn [nullable]; split; intros H;
    try discriminate; try reflexivity; try (now constructor).
  - inversion H.
  - inversion H.
  - apply andb_true_iff in H as [H1 H2].
    change (@nil ascii) with (@nil ascii ++ [])%list.
    constructor; [now apply IHr1 | now apply IHr2].
  - inversion H as [| | |a b u v Hu Hv Hab Huv| | | |]; subst.
    apply app_eq_nil in Huv as [-> ->].
    apply andb_true_iff. split; [now apply IHr1 | now apply IHr2].
  - apply orb_true_iff in H as [H|H];
      [apply lang_alt_l; now apply IHr1 | apply lang_alt_r; now apply IHr2].
  - apply orb_true_iff.
    inversion H; subst; [left; now apply IHr1 | right; now apply IHr2].
  - inversion H.
Qed.

Lemma star_cons_inv (a : regex) (l : list ascii) :
  lang (Star a) l ->
  forall x t, l = x :: t ->
  exists u v, t = (u ++ v)%list /\ lang a (x :: u) /\ lang (Star a) v.
Proof.
  intros H. remember (Star a) as r eqn:Hr. revert Hr.
  induction H as [| | | | | | |a' u v Hu _ Hv IHv]; intros Hr;
    try discriminate.
  injection Hr as ->. intros x t Hl.
  destruct u as [|y u'].
  - cbn [app] in Hl. apply (IHv eq_refl x t Hl).
  - cbn [app] in Hl. injection Hl as -> <-.
    exists u', v. auto.
Qed.

Lemma deriv_lang (r : regex) :
  forall x l, lang (deriv x r) l <-> lang r (x :: l).
Proof.
  induction r as [|c| |a IHa b IHb|a IHa b IHb|a IHa|];
    intros x l; cbn [deriv]; split; intros H.
  - inversion H.
  - inversion H.
  - destruct (ascii_eqb_ci c x) eqn:E; inversion H; subst.
    now constructor.
  - inversion H; subst.
    match goal with Hc : ascii_eqb_ci _ _ = true |- _ => rewrite Hc end.
    constructor.
  - destruct (code x =? 10) eqn:E; inversion H; subst.
    constructor. now apply Z.eqb_neq.
  - inversion H as [| |y Hy| | | | |]; subst.
    apply Z.eqb_neq in Hy. rewrite Hy. constructor.
  - destruct (nullable a) eqn:Hn.
    + inversion H as [| | | |? ? ? H1|? ? ? H2| |]; subst.
      * inversion H1 as [| | |? ? u v Hu Hv| | | |]; subst.
        change (x :: u ++ v)%list with ((x :: u) ++ v)%list.
        constructor; [now apply IHa | exact Hv].
      * change (x :: l) with ([] ++ x :: l)%list.
        constructor; [now apply nullable_lang | now apply IHb].
    + inversion H as [| | |? ? u v Hu Hv| | | |]; subst.
      change (x :: u ++ v)%list with ((x :: u) ++ v)%list.
      constructor; [now apply IHa | exact Hv].
  - inversion H as [| | |? ? u v Hu Hv Hab Huv| | | |]; subst.
    destruct u as [|y u'].
    + cbn [app] in Huv. subst v.
      apply nullable_lang in Hu. rewrite Hu.
      apply lang_alt_r. now apply IHb.
    + cbn [app] in Huv. injection Huv as -> <-.
      apply IHa in Hu.
      destruct (nullable a); [apply lang_alt_l|]; now constructor.
  - inversion H; subst;
      [apply lang_alt_l; now apply IHa | apply lang_alt_r; now apply IHb].
  - inversion H; subst;
      [apply lang_alt_l; now apply IHa | apply lang_alt_r; now apply IHb].
  - inversion H as [| | |? ? u v Hu Hv| | | |]; subst.
    change (x :: u ++ v)%list with ((x :: u) ++ v)%list.
    constructor; [now apply IHa | exact Hv].
  - destruct (star_cons_inv a _ H x l eq_refl) as (u & v & -> & Hu & Hv).
    constructor; [now apply IHa | exact Hv].
  - inversion H.
  - inversion H.
Qed.

Lemma matches_prefix_lang (l : list ascii) :
  forall r,
    matches_prefix r l = true <->
    exists u v, l = (u ++ v)%list /\ lang r u.
Proof.
  induction l as [|x t IH]; intros r; cbn [matches_prefix].
  - rewrite orb_false_r, nullable_lang. split.
    + intros H. exists [], []. auto.
    + intros (u & v & Huv & Hu). symmetry in Huv.
      apply app_eq_nil in Huv as [-> _]. exact Hu.
  - rewrite orb_true_iff, nullable_lang, IH. split.
    + intros [H | (u & v & -> & Hu)].
      * exists [], (x :: t). auto.
      * exists (x :: u), v. split; [reflexivity|]. now apply deriv_lang.
    + intros (u & v & Huv & Hu). destruct u as [|y u'].
      * now left.
      * cbn [app] in Huv. injection Huv as -> ->.
        right. exists u', v. split; [reflexivity|]. now apply deriv_lang.
Qed.

Lemma search_chars_lang (r : regex) (l : list ascii) :
  search_chars r l = true <->
  exists before m after, l = (before ++ m ++ after)%list /\ lang r m.
Proof.
  induction l as [|x t IH]; cbn [search_chars].
  - rewrite orb_false_r, matches_prefix_lang. split.
    + intros (u & v & Huv & Hu). exists [], u, v. auto.
    + intros (b & m & a & Hl & Hm). symmetry in Hl.
      apply app_eq_nil in Hl as [-> Hl]. apply app_eq_nil in Hl as [-> ->].
      exists [], []. auto.
  - rewrite orb_true_iff, matches_prefix_lang, IH. split.
    + intros [(u & v & Huv & Hu) | (b & m & a & -> & Hm)].
      * exists [], u, v. auto.
      * exists (x :: b), m, a. auto.
    + intros (b & m & a & Hl & Hm). destruct b as [|y b'].
      * left. exists m, a. auto.
      * cbn [app] in Hl. injection Hl as -> ->.
        right. exists b', m, a. auto.
Qed.

End RegexFacts.

(** ** Search *)

Module SearchFacts.
Import Text Regex RegexFacts.

Lemma tokens_cons_plain (c : ascii) (t : list ascii) :
  is_meta c = false ->
  tokens (c :: t) = option_map (cons (TChr c)) (tokens t).
Proof.
  intros Hc.
  destruct c as [[] [] [] [] [] [] [] []];
    try (exfalso; vm_compute in Hc; discriminate Hc); reflexivity.
Qed.

Lemma tokens_plain (l : list ascii) :
  forallb (fun c => negb (is_meta c)) l = true ->
  tokens l = Some (map TChr l).
Proof.
  induction l as [|c t IH]; [reflexivity|].
  cbn [forallb]. intros H. apply andb_true_iff in H as [Hc Ht].
  apply negb_true_iff in Hc.
  rewrite (tokens_cons_plain c t Hc), (IH Ht). reflexivity.
Qed.

Lemma branch_literal (l : list ascii) :
  branch (map TChr l) = Some (literal l, []).
Proof.
  induction l as [|c t IH]; [reflexivity|].
  cbn [map branch atom_of]. destruct t as [|c' t']; [reflexivity|].
  cbn [map is_postfix]. cbn [map] in IH. rewrite IH. reflexivity.
Qed.

Lemma compile_plain (term : string) :
  plain term = true ->
  compile term = Some (literal (chars term)).
Proof.
  unfold plain, compile. intros H. rewrite (tokens_plain _ H).
  cbn [alternatives]. rewrite branch_literal. reflexivity.
Qed.

Lemma lower_eqb (a b : ascii) :
  ascii_eqb_ci a b = true <-> lower a = lower b.
Proof. unfold ascii_eqb_ci. apply Ascii.eqb_eq. Qed.

Lemma lang_literal (l : list ascii) :
  forall m, lang (literal l) m <-> map lower m = map lower l.
Proof.
  induction l as [|c t IH]; intros m; cbn [literal map]; split; intros H.
  - inversion H. reflexivity.
  - apply map_eq_nil in H. subst m. constructor.
  - inversion H as [| | |? ? u v Hu Hv| | | |]; subst.
    inversion Hu as [|? x Hx| | | | | |]; subst.
    cbn [app map]. apply lower_eqb in Hx. apply IH in Hv.
    congruence.
  - destruct m as [|x m']; [discriminate|].
    cbn [map] in H. injection H as Hx Hm.
    change (x :: m') with ([x] ++ m')%list.
    constructor; [|now apply IH].
    constructor. apply lower_eqb. congruence.
Qed.

(** On a literal pattern the store's caseless search is substring
    search, letter case aside. *)
Lemma test_literal (term text : string) :
  Regex.test (literal (chars term)) text = true <-> occurs_ci term text.
Proof.
  unfold Regex.test, occurs_ci. rewrite search_chars_lang. split.
  - intros (b & m & a & Hl & Hm). apply lang_literal in Hm.
    exists (map lower b), (map lower a).
    rewrite Hl, !map_app, Hm. reflexivity.
  - intros (b & a & H).
    apply map_eq_app in H as (b' & r & Hl & Hb & Hr).
    apply map_eq_app in Hr as (m & a' & -> & Hm & Ha).
    exists b', m, a'. split; [exact Hl|]. now apply lang_literal.
Qed.

Lemma searchQuery_nonempty (term : string) :
  term <> "" ->
  searchQuery term =
  Or [("title", term, "i"); ("author", term, "i");
      ("description", term, "i")].
Proof. destruct term; [congruence | reflexivity]. Qed.

Lemma compile_filter_search (term : string) (r : regex) :
  term <> "" ->
  compile term = Some r ->
  exists p, compile_filter (searchQuery term) = Some p /\
            forall b, p b = any_field r b.
Proof.
  intros Hne Hc. rewrite (searchQuery_nonempty term Hne).
  cbn [compile_filter compile_clauses compile_clause String.eqb Ascii.eqb
       Bool.eqb].
  rewrite Hc. eexists. split; [reflexivity|].
  intros b. cbn [existsb]. unfold any_field, field_value.
  cbn [String.eqb Ascii.eqb Bool.eqb]. rewrite orb_false_r, orb_assoc.
  reflexivity.
Qed.

End SearchFacts.







(* ================================================================== *)
(** * Further properties of the routes *)

(** ** Trimming *)

Module TextFacts.
Import Text.

Lemma drop_space_no_lead (l : list ascii) : no_lead (drop_space l).
Proof.
  induction l as [|c t IH]; cbn [drop_space]; [exact I|].
  destruct (is_space c) eqn:E; [exact IH | exact E].
Qed.

Lemma drop_space_fixed (l : list ascii) : no_lead l -> drop_space l = l.
Proof.
  destruct l as [|c t]; [reflexivity|]. cbn [no_lead drop_space].
  intros ->. reflexivity.
Qed.

Lemma drop_space_snoc (l : list ascii) (x : ascii) :
  is_space x = false ->
  drop_space (l ++ [x]) = (drop_space l ++ [x])%list.
Proof.
  intros Hx. induction l as [|c t IH]; cbn [drop_space app].
  - rewrite Hx. reflexivity.
  - destruct (is_space c); [exact IH | reflexivity].
Qed.

Lemma drop_space_length (l : list ascii) :
  (List.length (drop_space l) <= List.length l)%nat.
Proof.
  induction l as [|c t IH]; cbn [drop_space]; [lia|].
  destruct (is_space c); cbn [List.length]; lia.
Qed.

Lemma trim_chars_fixed (l : list ascii) :
  trim_chars (trim_chars l) = trim_chars l.
Proof.
  unfold trim_chars.
  pose proof (drop_space_no_lead l) as Ha.
  destruct (drop_space l) as [|x a'] eqn:Ea.
  - reflexivity.
  - cbn [no_lead] in Ha. cbn [rev].
    rewrite (drop_space_snoc _ _ Ha), rev_app_distr. cbn [rev app].
    cbn [drop_space]. rewrite Ha. cbn [rev].
    rewrite rev_involutive, (drop_space_snoc _ _ Ha).
    rewrite (drop_space_fixed (drop_space (rev a'))
               (drop_space_no_lead _)).
    rewrite rev_app_distr. reflexivity.
Qed.

Lemma trim_chars_length (l : list ascii) :
  (List.length (trim_chars l) <= List.length l)%nat.
Proof.
  unfold trim_chars. rewrite length_rev.
  pose proof (drop_space_length (rev (drop_space l))).
  pose proof (drop_space_length l).
  rewrite length_rev in *. lia.
Qed.

Lemma chars_of_list (l : list ascii) : chars (string_of_list_ascii l) = l.
Proof. apply list_ascii_of_string_of_list_ascii. Qed.

Lemma length_chars (s : string) : List.length (chars s) = String.length s.
Proof.
  unfold chars. induction s as [|c s IH]; [reflexivity|].
  cbn [list_ascii_of_string List.length String.length]. congruence.
Qed.

Lemma trim_fixed (s : string) : trim (trim s) = trim s.
Proof.
  unfold trim. rewrite chars_of_list, trim_chars_fixed. reflexivity.
Qed.

Lemma trim_len (s : string) : len (trim s) <= len s.
Proof.
  unfold len, trim. rewrite <- !length_chars, chars_of_list.
  pose proof (trim_chars_length (chars s)). lia.
Qed.

(** The trimmed text neither starts nor ends with white space. *)
Lemma trim_edges (s : string) :
  no_lead (chars (trim s)) /\ no_lead (rev (chars (trim s))).
Proof.
  unfold trim. rewrite chars_of_list. unfold trim_chars. split.
  - pose proof (drop_space_no_lead (chars s)) as Ha.
    destruct (drop_space (chars s)) as [|x a']; [exact I|].
    cbn [no_lead] in Ha. cbn [rev].
    rewrite (drop_space_snoc _ _ Ha), rev_app_distr. exact Ha.
  - rewrite rev_involutive. apply drop_space_no_lead.
Qed.

End TextFacts.

(** ** Request validation *)

Lemma chain_errors_nil (field m1 m2 : string) (min max : Z)
    (v : option string) :
  1 <= min ->
  (fst (chain field m1 m2 min max v) = [] <->
   min <= Text.len (toString v) <= max).
Proof.
  intros Hmin. unfold chain, notEmpty, isLength. cbn [fst].
  destruct (Z.eqb_spec (Text.len (toString v)) 0) as [E0|E0];
    destruct (Z.leb_spec min (Text.len (toString v))) as [L1|L1];
    destruct (Z.leb_spec (Text.len (toString v)) max) as [L2|L2];
    cbn [negb andb app]; split; intros Hx; try discriminate;
    try reflexivity; lia.
Qed.

(** The request validation lets a create through exactly when the three
    texts as sent (a missing field counting as empty) have 1 to 200, 1 to
    100 and 10 to 1000 characters; white space counts. *)
Theorem validation_accepts_iff (req : CreateRequest) :
  fst (addBookValidation req) = [] <->
  1 <= Text.len (toString (body_title req)) <= 200 /\
  1 <= Text.len (toString (body_author req)) <= 100 /\
  10 <= Text.len (toString (body_description req)) <= 1000.
Proof.
  unfold addBookValidation.
  pose proof (chain_errors_nil "title" "Title is required"
    "Title must be between 1 and 200 characters" 1 200 (body_title req)
    ltac:(lia)) as Ht.
  pose proof (chain_errors_nil "author" "Author is required"
    "Author must be between 1 and 100 characters" 1 100 (body_author req)
    ltac:(lia)) as Ha.
  pose proof (chain_errors_nil "description" "Description is required"
    "Description must be between 10 and 1000 characters" 10 1000
    (body_description req) ltac:(lia)) as Hd.
  destruct (chain "title" _ _ 1 200 _) as [et t].
  destruct (chain "author" _ _ 1 100 _) as [ea a].
  destruct (chain "description" _ _ 10 1000 _) as [ed d].
  cbn [fst] in *. rewrite <- Ht, <- Ha, <- Hd. split.
  - intros H. apply app_eq_nil in H as [-> H].
    apply app_eq_nil in H as [-> ->]. auto.
  - intros (-> & -> & ->). reflexivity.
Qed.

(** A field that is missing or empty is reported twice, once as required
    and once for its length. *)
Theorem missing_title_errors (req : CreateRequest) :
  toString (body_title req) = "" ->
  exists rest,
    fst (addBookValidation req) =
    mkFieldError "title" "Title is required"
    :: mkFieldError "title" "Title must be between 1 and 200 characters"
    :: rest.
Proof.
  intros Ht. unfold addBookValidation, chain. rewrite Ht.
  cbn [notEmpty isLength Text.len String.length Z.of_nat Z.eqb negb
       Z.leb Z.compare andb app fst].
  eexists. reflexivity.
Qed.

Lemma missing_title_errors_witness :
  exists rest,
    fst (addBookValidation
           (mkCreateRequest None (Some "F. Scott Fitzgerald")
              (Some "A portrait of the Jazz Age") None)) =
    mkFieldError "title" "Title is required"
    :: mkFieldError "title" "Title must be between 1 and 200 characters"
    :: rest.
Proof.
  apply (missing_title_errors
           (mkCreateRequest None (Some "F. Scott Fitzgerald")
              (Some "A portrait of the Jazz Age") None)).
  reflexivity.
Defined.

(** ** What a create does to the world *)

Lemma unlink_keeps (p label : string) (w : World) :
  books (snd (unlink p label w)) = books w /\
  next_oid (snd (unlink p label w)) = next_oid w /\
  db_fault (snd (unlink p label w)) = db_fault w.
Proof.
  rewrite unlink_eq. cbn [snd]. auto.
Qed.

Lemma post_books_no_file (req : CreateRequest) (w : World) :
  upload req = None ->
  post_books req w =
  match addBookValidation req with
  | ((_ :: _) as errors, _) =>
      (mkResponse 400 (Invalid "Validation failed" errors), w)
  | ([], (t, a, d)) =>
      match save (mkBookData t a d None) w with
      | (Ok b, w2) =>
          (mkResponse 201 (Created "Book added successfully" b), w2)
      | (Throw e, w2) =>
          (match e with
           | ValidationError errs =>
               mkResponse 400 (Invalid "Validation error" errs)
           | _ => mkResponse 500
                    (Failure "Internal server error" (exn_message e))
           end, w2)
      end
  end.
Proof.
  intros Hu. unfold post_books, bind, upload_single. rewrite Hu.
  unfold ret at 1.
  destruct (addBookValidation req) as [errors [[t a] d]].
  rewrite handleValidationErrors_eq.
  destruct errors as [|e errors]; [|reflexivity].
  rewrite create_book_eq. cbv zeta. cbn [cleanup].
  destruct (save _ w) as [[b|e] w2]; reflexivity.
Qed.

(** The outcome of saving, for any world and data: either a book with the
    next identifier is appended, or the collection is left alone. *)
Lemma save_outcomes (d : BookData) (w : World) :
  (exists b,
     fst (save d w) = Ok b /\
     books (snd (save d w)) = (books w ++ [b])%list /\
     _id b = oid (next_oid w) /\
     next_oid (snd (save d w)) = (next_oid w + 1)%N /\
     db_fault w = None /\ schema_errors d = []) \/
  (exists e,
     fst (save d w) = Throw e /\
     books (snd (save d w)) = books w /\
     next_oid (snd (save d w)) = next_oid w).
Proof.
  rewrite save_eq. cbv zeta.
  destruct (schema_errors d) as [|se ses].
  - destruct (db_fault w) as [m|] eqn:Hdb; cbn [fst snd books next_oid].
    + right. eexists. auto.
    + left. eexists. repeat split.
  - right. eexists. cbn [fst snd]. auto.
Qed.

Lemma post_books_collection (req : CreateRequest) (w : World) :
  (exists b,
     fst (post_books req w) =
     mkResponse 201 (Created "Book added successfully" b) /\
     books (snd (post_books req w)) = (books w ++ [b])%list /\
     _id b = oid (next_oid w) /\
     next_oid (snd (post_books req w)) = (next_oid w + 1)%N) \/
  ((status (fst (post_books req w)) = 400 \/
    status (fst (post_books req w)) = 500) /\
   books (snd (post_books req w)) = books w /\
   next_oid (snd (post_books req w)) = next_oid w).
Proof.
  destruct (upload req) as [u|] eqn:Hu.
  - destruct (Text.startsWith (mimetype u) "image/") eqn:Hm.
    + destruct (Z.lt_ge_cases fileSize (size u)) as [Hs|Hs].
      * rewrite (post_books_too_large req u w Hu Hm Hs).
        right. cbn [fst snd status books next_oid]. auto.
      * rewrite (post_books_with_file req u w Hu Hm Hs). cbv zeta.
        destruct (addBookValidation req) as [[|e errors] [[t a] d]].
        -- match goal with
           | |- context [save ?bd ?w1] =>
               destruct (save_outcomes bd w1)
                 as [(b & Hf & Hb & Hi & Hn & _) | (e & Hf & Hb & Hn)];
               destruct (save bd w1) as [r w2]; cbn [fst snd] in *; subst r
           end.
           ++ left. exists b. cbn [fst snd books next_oid] in *. auto.
           ++ right. cbn [fst snd].
              destruct (unlink_keeps
                          ("uploads/" ++ fst (storage_filename u w))
                          "Error deleting file:" w2) as (Kb & Kn & _).
              rewrite Kb, Kn, Hb, Hn. cbn [books next_oid].
              split; [destruct e; cbn [status]; auto | auto].
        -- right. cbn [fst snd status].
           match goal with
           | |- context [unlink ?p ?l ?w1] =>
               destruct (unlink_keeps p l w1) as (Kb & Kn & _)
           end.
           rewrite Kb, Kn. cbn [books next_oid]. auto.
    + rewrite (post_books_not_image req u w Hu Hm).
      right. cbn [fst snd status]. auto.
  - rewrite (post_books_no_file req w Hu).
    destruct (addBookValidation req) as [[|e errors] [[t a] d]].
    + match goal with
      | |- context [save ?bd ?w1] =>
          destruct (save_outcomes bd w1)
            as [(b & Hf & Hb & Hi & Hn & _) | (e & Hf & Hb & Hn)];
          destruct (save bd w1) as [r w2]; cbn [fst snd] in *; subst r
      end.
      * left. exists b. auto.
      * right. cbn [fst snd]. rewrite Hb, Hn.
        split; [destruct e; cbn [status]; auto | auto].
    + right. cbn [fst snd status]. auto.
Qed.

(** A create is answered 201, 400 or 500.  On 201 exactly one book, the
    one in the answer, has been appended to the collection under the next
    identifier; on 400 and 500 the collection is as it was. *)
Theorem create_outcomes (req : CreateRequest) (w : World) :
  (exists b,
     fst (post_books req w) =
     mkResponse 201 (Created "Book added successfully" b) /\
     books (snd (post_books req w)) = (books w ++ [b])%list /\
     _id b = oid (next_oid w) /\
     next_oid (snd (post_books req w)) = (next_oid w + 1)%N) \/
  ((status (fst (post_books req w)) = 400 \/
    status (fst (post_books req w)) = 500) /\
   books (snd (post_books req w)) = books w /\
   next_oid (snd (post_books req w)) = next_oid w).
Proof. apply post_books_collection. Qed.

Lemma addBookValidation_fields (req : CreateRequest) :
  snd (addBookValidation req) =
  (Text.trim (toString (body_title req)),
   Text.trim (toString (body_author req)),
   Text.trim (toString (body_description req))).
Proof. reflexivity. Qed.

Lemma save_ok_inv (d : BookData) (w w' : World) (b : Book) :
  save d w = (Ok b, w') ->
  b = mkBook (oid (next_oid w)) (Text.trim (d_title d))
        (Text.trim (d_author d)) (Text.trim (d_description d))
        (d_image d) (now w) (now w) /\
  w' = mkWorld (books w ++ [b])%list (db_fault w) (files w)
         (unlink_denied w) (now w) (random w) (next_oid w + 1)%N
         (trace w ++ [DbInsert b])%list (pending w) (tie_rank w) /\
  db_fault w = None.
Proof.
  rewrite save_eq. cbv zeta.
  destruct (schema_errors d); [|discriminate].
  destruct (db_fault w); [discriminate|].
  intros H. split; [congruence|]. split; [|reflexivity].
  injection H as Hb Hw. rewrite <- Hw, <- Hb. reflexivity.
Qed.

(** How an answer 201 came about: the request validation found nothing,
    the upload step passed (with or without a file) and the save of the
    sanitized fields succeeded. *)
Lemma post_books_created (req : CreateRequest) (w w' : World)
    (m : string) (b : Book) :
  post_books req w = (mkResponse 201 (Created m b), w') ->
  fst (addBookValidation req) = [] /\
  exists file w1,
    upload_single (upload req) w = (Ok file, w1) /\
    save (mkBookData (Text.trim (toString (body_title req)))
            (Text.trim (toString (body_author req)))
            (Text.trim (toString (body_description req)))
            (match file with
             | Some f => Some ("/uploads/" ++ filename f)
             | None => None
             end)) w1 = (Ok b, w').
Proof.
  unfold post_books, bind.
  destruct (upload_single (upload req) w) as [[file|e] w1].
  2:{ unfold ret, error_handler. destruct e as [c ?| |];
      try destruct (String.eqb c "LIMIT_FILE_SIZE"); discriminate. }
  pose proof (addBookValidation_fields req) as Hf.
  destruct (addBookValidation req) as [errors fields].
  cbn [snd] in Hf. subst fields.
  rewrite handleValidationErrors_eq.
  destruct errors; [|discriminate].
  rewrite create_book_eq. cbv zeta.
  destruct (save _ w1) as [[sb|e] w3] eqn:Hs.
  - unfold ret. intros H. split; [reflexivity|].
    exists file, w1. split; [reflexivity|].
    rewrite Hs. congruence.
  - destruct e; discriminate.
Qed.

(** The texts of a created book are the texts sent with the white space
    at both ends removed; trimming them again changes nothing. *)
Theorem created_texts_trimmed (req : CreateRequest) (w w' : World)
    (m : string) (b : Book) :
  post_books req w = (mkResponse 201 (Created m b), w') ->
  title b = Text.trim (toString (body_title req)) /\
  author b = Text.trim (toString (body_author req)) /\
  description b = Text.trim (toString (body_description req)) /\
  no_lead (Text.chars (title b)) /\
  no_lead (rev (Text.chars (title b))) /\
  no_lead (Text.chars (author b)) /\
  no_lead (rev (Text.chars (author b))) /\
  no_lead (Text.chars (description b)) /\
  no_lead (rev (Text.chars (description b))).
Proof.
  intros H. apply post_books_created in H as (_ & file & w1 & _ & Hs).
  apply save_ok_inv in Hs as (-> & _ & _).
  cbn [title author description d_title d_author d_description].
  rewrite !TextFacts.trim_fixed.
  repeat split; apply TextFacts.trim_edges.
Qed.

Lemma created_texts_trimmed_witness :
  exists b w',
    post_books (mkCreateRequest (Some "  The Great Gatsby ")
                  (Some "F. Scott Fitzgerald")
                  (Some "A portrait of the Jazz Age   ") None) world0
    = (mkResponse 201 (Created "Book added successfully" b), w') /\
    title b = "The Great Gatsby" /\
    description b = "A portrait of the Jazz Age".
Proof.
  eexists _, _. split; [vm_compute; reflexivity|].
  pose proof (created_texts_trimmed
    (mkCreateRequest (Some "  The Great Gatsby ")
       (Some "F. Scott Fitzgerald")
       (Some "A portrait of the Jazz Age   ") None)
    world0 _ _ _ eq_refl) as (Ht & _ & Hd & _).
  split; [exact Ht | exact Hd].
Defined.

Lemma created_book_bounds_witness :
  exists b w',
    post_books (mkCreateRequest (Some "The Great Gatsby")
                  (Some "F. Scott Fitzgerald")
                  (Some "A portrait of the Jazz Age") (Some cover)) world0
    = (mkResponse 201 (Created "Book added successfully" b), w') /\
    1 <= Text.len (title b) <= 200 /\
    1 <= Text.len (author b) <= 100 /\
    1 <= Text.len (description b) <= 1000.
Proof.
  eexists _, _. split; [vm_compute; reflexivity|].
  apply (created_book_bounds
    (mkCreateRequest (Some "The Great Gatsby")
       (Some "F. Scott Fitzgerald")
       (Some "A portrait of the Jazz Age") (Some cover))
    world0 _ _ _ eq_refl).
Defined.

(** A title made of white space only gets past the request validation
    (which looks at the text as sent) and is then refused by the schema:
    the answer is 400 "Validation error" naming the path [title], and
    nothing is stored. *)
Theorem blank_title_refused_by_schema (req : CreateRequest) (w : World) :
  upload req = None ->
  fst (addBookValidation req) = [] ->
  Text.trim (toString (body_title req)) = "" ->
  exists rest,
    post_books req w =
    (mkResponse 400
       (Invalid "Validation error"
          (mkFieldError "title" "Path `title` is required." :: rest)), w).
Proof.
  intros Hu Hv Ht. rewrite (post_books_no_file req w Hu).
  pose proof (addBookValidation_fields req) as Hf.
  destruct (addBookValidation req) as [errors fields].
  cbn [fst snd] in Hv, Hf. subst errors fields.
  rewrite save_eq. cbv zeta. unfold schema_errors.
  cbn [d_title d_author d_description].
  unfold path_errors at 1. rewrite TextFacts.trim_fixed, Ht.
  cbn [Text.len String.length Z.of_nat Z.eqb app].
  eexists. reflexivity.
Qed.

Lemma blank_title_refused_by_schema_witness :
  exists rest,
    post_books (mkCreateRequest (Some "   ") (Some "F. Scott Fitzgerald")
                  (Some "A portrait of the Jazz Age") None) world0 =
    (mkResponse 400
       (Invalid "Validation error"
          (mkFieldError "title" "Path `title` is required." :: rest)),
     world0).
Proof.
  apply (blank_title_refused_by_schema
           (mkCreateRequest (Some "   ") (Some "F. Scott Fitzgerald")
              (Some "A portrait of the Jazz Age") None) world0);
    reflexivity.
Defined.

(** A create without a file part leaves the disk alone: no file is
    written or removed, whatever the outcome. *)
Theorem create_without_file_keeps_disk (req : CreateRequest) (w : World) :
  upload req = None ->
  files (snd (post_books req w)) = files w /\
  exists evs,
    trace (snd (post_books req w)) = (trace w ++ evs)%list /\
    existsb is_fs_event evs = false.
Proof.
  intros Hu. rewrite (post_books_no_file req w Hu).
  destruct (addBookValidation req) as [[|e errors] [[t a] d]].
  - rewrite save_eq. cbv zeta.
    destruct (schema_errors _).
    + destruct (db_fault w); cbn [snd files trace];
        (split; [reflexivity|]); eexists [_]; split; reflexivity.
    + cbn [snd]. split; [reflexivity|]. exists [].
      split; [now rewrite app_nil_r | reflexivity].
  - cbn [snd]. split; [reflexivity|]. exists [].
    split; [now rewrite app_nil_r | reflexivity].
Qed.

Lemma create_without_file_keeps_disk_witness :
  files (snd (post_books
                (mkCreateRequest (Some "The Great Gatsby")
                   (Some "F. Scott Fitzgerald")
                   (Some "A portrait of the Jazz Age") None) world0)) = [].
Proof.
  apply (create_without_file_keeps_disk
           (mkCreateRequest (Some "The Great Gatsby")
              (Some "F. Scott Fitzgerald")
              (Some "A portrait of the Jazz Age") None) world0 eq_refl).
Defined.

(** The type check of the upload comes before the field validation: a
    file part whose content type does not start with [image/] is answered
    with the 500 "Only image files are allowed!" whatever the fields are,
    and disk, collection and trace are left as they were. *)
Theorem non_image_upload_refused
    (req : CreateRequest) (u : Upload) (w : World) :
  upload req = Some u ->
  Text.startsWith (mimetype u) "image/" = false ->
  post_books req w =
  (mkResponse 500
     (Failure "Something went wrong!" "Only image files are allowed!"), w).
Proof. apply post_books_not_image. Qed.

Lemma non_image_upload_refused_witness :
  post_books (mkCreateRequest None None None
                (Some (mkUpload "notes.txt" "text/plain" 12))) world0 =
  (mkResponse 500
     (Failure "Something went wrong!" "Only image files are allowed!"),
   world0).
Proof.
  apply (non_image_upload_refused
           (mkCreateRequest None None None
              (Some (mkUpload "notes.txt" "text/plain" 12)))
           (mkUpload "notes.txt" "text/plain" 12) world0);
    reflexivity.
Defined.

(** A created book refers to an image exactly when a file came with the
    request, and then to the file the upload step has put on the disk:
    the image is [/uploads/<name>] and [uploads/<name>] is present. *)
Theorem created_image_on_disk (req : CreateRequest) (w w' : World)
    (m : string) (b : Book) :
  post_books req w = (mkResponse 201 (Created m b), w') ->
  match upload req with
  | None => image b = None /\ files w' = files w
  | Some u =>
      let name := fst (storage_filename u w) in
      image b = Some ("/uploads/" ++ name) /\
      mem ("uploads/" ++ name) (files w') = true
  end.
Proof.
  intros H. apply post_books_created in H as (_ & file & w1 & Hup & Hs).
  apply save_ok_inv in Hs as (-> & -> & _). cbn [image files d_image].
  destruct (upload req) as [u|].
  - destruct (Text.startsWith (mimetype u) "image/") eqn:Hm.
    + pose proof (upload_single_image u w Hm) as Hp. cbv zeta in Hp.
      rewrite Hp in Hup.
      destruct (fileSize <? size u); [discriminate|].
      injection Hup as <- <-. cbn [filename files]. cbv zeta.
      split; [reflexivity | apply mem_head].
    + unfold upload_single, fileFilter in Hup. rewrite Hm in Hup.
      discriminate.
  - unfold upload_single, ret in Hup. injection Hup as <- <-. auto.
Qed.

Lemma created_image_on_disk_witness :
  exists b w',
    post_books (mkCreateRequest (Some "The Great Gatsby")
                  (Some "F. Scott Fitzgerald")
                  (Some "A portrait of the Jazz Age") (Some cover)) world0
    = (mkResponse 201 (Created "Book added successfully" b), w') /\
    image b = Some "/uploads/book-1700000000000-424242.png" /\
    mem "uploads/book-1700000000000-424242.png" (files w') = true.
Proof.
  eexists _, _. split; [vm_compute; reflexivity|].
  apply (created_image_on_disk
    (mkCreateRequest (Some "The Great Gatsby")
       (Some "F. Scott Fitzgerald")
       (Some "A portrait of the Jazz Age") (Some cover))
    world0 _ _ _ eq_refl).
Defined.

(** ** Identifiers *)

Lemma hex_digit_is_hex (m : N) : (m < 16)%N -> is_hex (hex_digit m) = true.
Proof.
  intros H. unfold hex_digit.
  assert (Hn : (N.to_nat m < 16)%nat) by lia.
  destruct (N.to_nat m) as [|k]; [reflexivity|].
  do 15 (destruct k as [|k]; [reflexivity|]). lia.
Qed.

Lemma hex_digits_length (k : nat) :
  forall n acc,
    List.length (hex_digits k n acc) = (k + List.length acc)%nat.
Proof.
  induction k as [|k IH]; intros n acc; cbn [hex_digits]; [reflexivity|].
  rewrite IH. cbn [List.length]. lia.
Qed.

Lemma hex_digits_hex (k : nat) :
  forall n acc,
    forallb is_hex acc = true ->
    forallb is_hex (hex_digits k n acc) = true.
Proof.
  induction k as [|k IH]; intros n acc Hacc; cbn [hex_digits]; [exact Hacc|].
  apply IH. cbn [forallb]. rewrite Hacc, hex_digit_is_hex; [reflexivity|].
  apply N.mod_lt. discriminate.
Qed.

(** Every identifier the store hands out is 24 hexadecimal digits, and
    so one the lookup route takes as well formed. *)
Lemma is_object_id_oid (seed : N) : is_object_id (oid seed) = true.
Proof.
  unfold is_object_id, oid, Text.len.
  rewrite <- TextFacts.length_chars, TextFacts.chars_of_list.
  rewrite hex_digits_length, hex_digits_hex; reflexivity.
Qed.

Lemma isMongoId_oid (seed : N) : isMongoId (oid seed) = true.
Proof. apply is_object_id_isMongoId, is_object_id_oid. Qed.

Lemma find_last (A : Type) (f : A -> bool) (l : list A) (x : A) :
  (forall y, In y l -> f y = false) ->
  f x = true ->
  find f (l ++ [x]) = Some x.
Proof.
  intros Hl Hx. induction l as [|y t IH]; cbn [app find].
  - rewrite Hx. reflexivity.
  - rewrite (Hl y (or_introl eq_refl)). apply IH.
    intros z Hz. apply Hl. now right.
Qed.

Lemma oid_eqb_refl (a : string) : oid_eqb a a = true.
Proof. unfold oid_eqb. apply String.eqb_refl. Qed.

(** Create, then look up: when no book already in the collection carries
    the identifier of the created book, asking for that identifier
    returns the created book. *)
Theorem create_then_get (req : CreateRequest) (w w' : World)
    (m : string) (b : Book) :
  post_books req w = (mkResponse 201 (Created m b), w') ->
  (forall b0, In b0 (books w) -> oid_eqb (_id b0) (_id b) = false) ->
  fst (get_book (_id b) w') = mkResponse 200 (Found b).
Proof.
  intros H Hfresh.
  assert (Hid : is_object_id (_id b) = true /\ db_fault w' = None).
  { apply post_books_created in H as (_ & file & w1 & _ & Hs).
    apply save_ok_inv in Hs as (-> & -> & Hdb).
    cbn [_id db_fault]. split; [apply is_object_id_oid | exact Hdb]. }
  destruct Hid as [Hid Hdb].
  assert (Hbooks : books w' = (books w ++ [b])%list).
  { destruct (post_books_collection req w) as [(b' & Hr & Hb & _) | ([Hst|Hst] & _)];
      rewrite H in *; cbn [fst snd status] in *; try discriminate.
    assert (b' = b) by congruence. subst b'. exact Hb. }
  rewrite (get_book_valid _ _ (is_object_id_isMongoId _ Hid)).
  rewrite (findById_eq _ _ Hid Hdb). cbn [fst]. rewrite Hbooks.
  rewrite (find_last _ _ _ b Hfresh (oid_eqb_refl _)). reflexivity.
Qed.

Lemma create_then_get_witness :
  exists b w',
    post_books (mkCreateRequest (Some "The Great Gatsby")
                  (Some "F. Scott Fitzgerald")
                  (Some "A portrait of the Jazz Age") None) world0
    = (mkResponse 201 (Created "Book added successfully" b), w') /\
    fst (get_book (_id b) w') = mkResponse 200 (Found b).
Proof.
  eexists _, _. split; [vm_compute; reflexivity|].
  apply (create_then_get
    (mkCreateRequest (Some "The Great Gatsby")
       (Some "F. Scott Fitzgerald")
       (Some "A portrait of the Jazz Age") None)
    world0 _ "Book added successfully" _ eq_refl).
  intros b0 [].
Defined.

(** ** The read routes *)

Lemma list_with_world (p : Book -> bool) (q : Query) (w : World) :
  same_state w (snd (list_with p q w)) /\
  exists evs, trace (snd (list_with p q w)) = (trace w ++ evs)%list /\
              forallb is_read_event evs = true.
Proof.
  unfold same_state.
  destruct (db_fault w) as [m|] eqn:Hdb.
  - rewrite (list_with_fault p q w m Hdb). cbn [snd].
    cbn [books files next_oid db_fault unlink_denied trace].
    rewrite Hdb. repeat split. exists [DbCount]. split; reflexivity.
  - destruct (Z.lt_ge_cases (skip_of q) 0) as [Hs | Hs].
    + rewrite (list_with_negative p q w Hdb Hs). cbn [snd].
      cbn [books files next_oid db_fault unlink_denied trace].
      rewrite Hdb. repeat split. eexists [DbCount; DbFind _ _].
      split; reflexivity.
    + rewrite (list_with_eq p q w Hdb Hs). cbn [snd].
      cbn [books files next_oid db_fault unlink_denied trace].
      rewrite Hdb. repeat split. eexists [DbCount; DbFind _ _].
      split; reflexivity.
Qed.

Lemma get_book_world (id : string) (w : World) :
  same_state w (snd (get_book id w)) /\
  exists evs, trace (snd (get_book id w)) = (trace w ++ evs)%list /\
              forallb is_read_event evs = true.
Proof.
  unfold same_state.
  destruct (isMongoId id) eqn:Hid.
  - rewrite (get_book_valid id w Hid). cbn [snd].
    unfold findById.
    destruct (is_object_id id); cbn [negb].
    + destruct w as [bs df fs ud nw rn no tr pd tk].
      cbv [bind emit get ret fst snd
           books db_fault files unlink_denied now random next_oid trace
           pending tie_rank].
      destruct df as [m|]; repeat split;
        exists [DbFindById id]; split; reflexivity.
    + unfold ret. cbn [snd]. repeat split.
      exists []. split; [now rewrite app_nil_r | reflexivity].
  - rewrite (get_book_invalid id w Hid). cbn [snd]. repeat split.
    exists []. split; [now rewrite app_nil_r | reflexivity].
Qed.

(** The two read routes change nothing but the trace: collection, disk
    and identifier seed are as before, and the only events added are
    lookups, counts and finds. *)
Theorem read_routes_change_nothing (w : World) :
  (forall id,
     same_state w (snd (get_book id w)) /\
     exists evs, trace (snd (get_book id w)) = (trace w ++ evs)%list /\
                 forallb is_read_event evs = true) /\
  (forall q r w',
     list_books q w = Some (r, w') ->
     same_state w w' /\
     exists evs, trace w' = (trace w ++ evs)%list /\
                 forallb is_read_event evs = true).
Proof.
  split; [intros id; apply get_book_world|].
  intros q r w' H. unfold list_books in H.
  destruct (compile_filter _) as [p|]; [|discriminate].
  injection H as H. pose proof (list_with_world p q w) as Hw.
  rewrite H in Hw. exact Hw.
Qed.

Lemma read_routes_change_nothing_witness :
  books (snd (get_book (oid 0) (with_books [gatsby; ulysses] world0)))
  = [gatsby; ulysses].
Proof.
  destruct (read_routes_change_nothing (with_books [gatsby; ulysses] world0))
    as [Hget _].
  destruct (Hget (oid 0)) as [(Hb & _) _]. exact Hb.
Defined.

(** With the store failing, a lookup of an identifier of 24 hexadecimal
    digits and a list request are answered 500 "Internal server error"
    with the store's message.  An identifier the check refuses is still
    answered 400, and one that passes the check without being an ObjectId
    is answered 500 with the cast error, the store not being asked in
    either case. *)
Theorem store_fault_answers (w : World) (m : string) :
  db_fault w = Some m ->
  (forall id, is_object_id id = true ->
     fst (get_book id w) =
     mkResponse 500 (Failure "Internal server error" m)) /\
  (forall id, isMongoId id = false ->
     get_book id w =
     (mkResponse 400
        (Invalid "Validation failed"
           [mkFieldError "id" "Invalid book ID format"]), w)) /\
  (forall id, isMongoId id = true -> is_object_id id = false ->
     get_book id w =
     (mkResponse 500 (Failure "Internal server error" (cast_error id)), w)) /\
  (forall q r w',
     list_books q w = Some (r, w') ->
     r = mkResponse 500 (Failure "Internal server error" m)).
Proof.
  intros Hdb. split; [|split; [|split]].
  - intros id Hid.
    rewrite (get_book_valid id w (is_object_id_isMongoId id Hid)).
    cbn [fst]. rewrite (findById_fault id w m Hid Hdb). reflexivity.
  - intros id Hid. apply get_book_invalid. exact Hid.
  - intros id Hid Hoid. apply get_book_cast; assumption.
  - intros q r w' H. unfold list_books in H.
    destruct (compile_filter _) as [p|]; [|discriminate].
    rewrite (list_with_fault p q w m Hdb) in H. congruence.
Qed.

Lemma store_fault_answers_witness :
  fst (get_book (oid 0)
         (with_db_fault (Some "connection refused")
            (with_books [gatsby] world0))) =
  mkResponse 500 (Failure "Internal server error" "connection refused") /\
  status (fst (get_book "0x1234567890abcdef123456"
                 (with_db_fault (Some "connection refused")
                    (with_books [gatsby] world0)))) = 500.
Proof.
  destruct (store_fault_answers
              (with_db_fault (Some "connection refused")
                 (with_books [gatsby] world0))
              "connection refused" eq_refl) as (H & _ & Hc & _).
  split; [apply H; reflexivity|].
  rewrite (Hc "0x1234567890abcdef123456" eq_refl eq_refl). reflexivity.
Defined.

(** ** More on listing *)

Lemma list_books_in_domain (q : Query) (w : World) (p : Book -> bool) :
  db_fault w = None ->
  compile_filter (searchQuery (search_of q)) = Some p ->
  1 <= page_of q ->
  1 <= limit_of q ->
  let total := Z.of_nat (List.length (filter p (books w))) in
  let pages := ceil_div total (limit_of q) in
  exists w',
    list_books q w =
    Some (mkResponse 200
            (Listing
               (firstn (Z.to_nat (limit_of q))
                  (skipn (Z.to_nat (skip_of q))
                     (sort_by (store_leb (sortBy_of q) (sortOrder_of q)
                                 (tie_rank w (skip_of q) (limit_of q)))
                        (filter p (books w)))))
               (mkPagination (page_of q) pages total
                  (page_of q <? pages) (1 <? page_of q) (limit_of q))), w').
Proof.
  intros Hdb Hp Hpage Hlimit. cbv zeta.
  pose proof (skip_of_nonneg q Hpage Hlimit) as Hskip.
  eexists. unfold list_books. rewrite Hp.
  rewrite (list_with_eq p q w Hdb Hskip). cbv zeta. unfold limited.
  assert (Hl : (limit_of q <? 0) = false) by (apply Z.ltb_ge; lia).
  rewrite Hl. reflexivity.
Qed.

(** A search text that is absent or empty filters nothing: the total
    reported is the size of the collection and every book returned is a
    book of the collection. *)
Theorem empty_search_lists_all (q : Query) (w : World) :
  q_search q = None \/ q_search q = Some "" ->
  db_fault w = None ->
  1 <= page_of q ->
  1 <= limit_of q ->
  exists data pg w',
    list_books q w = Some (mkResponse 200 (Listing data pg), w') /\
    totalBooks pg = Z.of_nat (List.length (books w)) /\
    forall b, In b data -> In b (books w).
Proof.
  intros Hs Hdb Hpage Hlimit.
  assert (Hq : search_of q = "")
    by (unfold search_of; destruct Hs as [-> | ->]; reflexivity).
  destruct (list_books_in_domain q w (fun _ => true) Hdb
              ltac:(rewrite Hq; reflexivity) Hpage Hlimit) as [w' H].
  cbv zeta in H. eexists _, _, w'. split; [exact H|].
  cbn [totalBooks]. rewrite filter_all. split; [reflexivity|].
  intros b Hb. apply in_firstn, in_skipn in Hb.
  apply (Permutation_in _ (sort_by_perm _ _ _)) in Hb. exact Hb.
Qed.

Lemma empty_search_lists_all_witness :
  exists data pg w',
    list_books (mkQuery None None (Some "") None None)
               (with_books (shelf 47) world0)
    = Some (mkResponse 200 (Listing data pg), w') /\
    totalBooks pg = 47.
Proof.
  destruct (empty_search_lists_all (mkQuery None None (Some "") None None)
              (with_books (shelf 47) world0)
              (or_intror eq_refl) eq_refl
              ltac:(vm_compute; discriminate) ltac:(vm_compute; discriminate))
    as (data & pg & w' & H & Ht & _).
  exists data, pg, w'. split; [exact H | exact Ht].
Defined.

(** For a page and a limit of at least 1: the next-page flag is set
    exactly when matching books remain after this page, the
    previous-page flag exactly when the page is not the first, and the
    number of books returned is what is left after the skip, capped by
    the limit. *)
Theorem page_flags_meaning (q : Query) (w : World) (p : Book -> bool) :
  db_fault w = None ->
  compile_filter (searchQuery (search_of q)) = Some p ->
  1 <= page_of q ->
  1 <= limit_of q ->
  let total := Z.of_nat (List.length (filter p (books w))) in
  exists data pg w',
    list_books q w = Some (mkResponse 200 (Listing data pg), w') /\
    (hasNextPage pg = true <-> page_of q * limit_of q < total) /\
    (hasPrevPage pg = true <-> 1 < page_of q) /\
    Z.of_nat (List.length data) =
    Z.min (limit_of q) (Z.max 0 (total - skip_of q)).
Proof.
  intros Hdb Hp Hpage Hlimit total.
  destruct (list_books_in_domain q w p Hdb Hp Hpage Hlimit) as [w' H].
  cbv zeta in H. fold total in H.
  eexists _, _, w'. split; [exact H|].
  cbn [hasNextPage hasPrevPage].
  pose proof (ceil_div_bounds total (limit_of q) ltac:(lia)) as Hc.
  split; [|split].
  - rewrite Z.ltb_lt. split; intros Hx; nia.
  - apply Z.ltb_lt.
  - rewrite length_firstn, length_skipn.
    rewrite (Permutation_length (sort_by_perm _ _ _)).
    pose proof (skip_of_nonneg q Hpage Hlimit).
    unfold total. lia.
Qed.

Lemma page_flags_meaning_witness :
  exists data pg w',
    list_books (mkQuery (Some "4") (Some "10") None None None)
               (with_books (shelf 47) world0)
    = Some (mkResponse 200 (Listing data pg), w') /\
    hasNextPage pg = true /\
    List.length data = 10%nat.
Proof.
  destruct (page_flags_meaning (mkQuery (Some "4") (Some "10") None None None)
              (with_books (shelf 47) world0) (fun _ => true)
              eq_refl eq_refl
              ltac:(vm_compute; discriminate) ltac:(vm_compute; discriminate))
    as (data & pg & w' & H & Hn & _ & Hl).
  exists data, pg, w'. split; [exact H|]. split.
  - apply Hn. vm_compute. reflexivity.
  - assert (Hten : Z.of_nat (List.length data) = 10)
      by (rewrite Hl; vm_compute; reflexivity).
    lia.
Defined.

(** A list request whose computed skip is negative (a negative page with
    a positive limit, for one) is answered 500: the store refuses the
    query, and the collection is not changed. *)
Theorem negative_skip_is_500 (q : Query) (w : World) (p : Book -> bool) :
  db_fault w = None ->
  compile_filter (searchQuery (search_of q)) = Some p ->
  (page_of q - 1) * limit_of q < 0 ->
  exists body w',
    list_books q w = Some (mkResponse 500 body, w') /\
    books w' = books w.
Proof.
  intros Hdb Hp Hneg. unfold list_books. rewrite Hp.
  rewrite (list_with_negative p q w Hdb (skip_of_neg q Hneg)).
  eexists _, _. split; reflexivity.
Qed.

Lemma negative_skip_is_500_witness :
  exists body w',
    list_books (mkQuery (Some "-1") (Some "10") None None None)
               (with_books (shelf 47) world0)
    = Some (mkResponse 500 body, w').
Proof.
  destruct (negative_skip_is_500 (mkQuery (Some "-1") (Some "10") None None None)
              (with_books (shelf 47) world0) (fun _ => true)
              eq_refl eq_refl ltac:(vm_compute; reflexivity))
    as (body & w' & H & _).
  exists body, w'. exact H.
Defined.

Lemma Sorted_weaken (A : Type) (R R' : A -> A -> Prop) (l : list A) :
  (forall a b, R a b -> R' a b) -> Sorted R l -> Sorted R' l.
Proof.
  intros HR. induction 1 as [|x t Hs IH Hhd]; constructor; [exact IH|].
  destruct Hhd; constructor. now apply HR.
Qed.

Lemma Sorted_skipn (A : Type) (R : A -> A -> Prop) (n : nat) :
  forall l, Sorted R l -> Sorted R (skipn n l).
Proof.
  induction n as [|n IH]; intros l Hl; [exact Hl|].
  destruct l as [|x t]; [exact Hl|]. cbn [skipn].
  apply IH. now inversion Hl.
Qed.

Lemma Sorted_firstn (A : Type) (R : A -> A -> Prop) (n : nat) :
  forall l, Sorted R l -> Sorted R (firstn n l).
Proof.
  induction n as [|n IH]; intros l Hl; [constructor|].
  destruct l as [|x t]; [constructor|]. cbn [firstn].
  inversion Hl as [|? ? Ht Hhd]; subst. constructor; [now apply IH|].
  destruct n as [|n']; [constructor|].
  destruct Hhd; cbn [firstn]; constructor. assumption.
Qed.

(** The books of a page come in the order asked for.  With no sort
    parameters that is newest first by creation time; with
    [sortBy=title&sortOrder=asc] it is by title, ascending in the order
    of the code units. *)
Theorem page_in_requested_order (q : Query) (w : World) (p : Book -> bool) :
  db_fault w = None ->
  compile_filter (searchQuery (search_of q)) = Some p ->
  1 <= page_of q ->
  1 <= limit_of q ->
  exists data pg w',
    list_books q w = Some (mkResponse 200 (Listing data pg), w') /\
    Sorted (fun a b => sort_leb (sortBy_of q) (sortOrder_of q) a b = true)
           data /\
    (q_sortBy q = None -> q_sortOrder q = None ->
     Sorted (fun a b => (createdAt b <= createdAt a)%N) data) /\
    (q_sortBy q = Some "title" -> q_sortOrder q = Some "asc" ->
     Sorted (fun a b => String.leb (title a) (title b) = true) data).
Proof.
  intros Hdb Hp Hpage Hlimit.
  destruct (list_books_in_domain q w p Hdb Hp Hpage Hlimit) as [w' H].
  cbv zeta in H. eexists _, _, w'. split; [exact H|].
  assert (Hs : Sorted
            (fun a b => sort_leb (sortBy_of q) (sortOrder_of q) a b = true)
            (firstn (Z.to_nat (limit_of q))
               (skipn (Z.to_nat (skip_of q))
                  (sort_by (store_leb (sortBy_of q) (sortOrder_of q)
                              (tie_rank w (skip_of q) (limit_of q)))
                     (filter p (books w)))))).
  { apply Sorted_firstn, Sorted_skipn.
    eapply Sorted_weaken; [|apply sort_by_sorted; apply store_leb_total].
    intros a b Hab. cbv beta in Hab. exact (store_leb_sort_leb _ _ _ _ _ Hab). }
  split; [exact Hs|]. split.
  - intros Hby Hord. revert Hs. unfold sortBy_of, sortOrder_of.
    rewrite Hby, Hord. cbn [str_or_default].
    apply Sorted_weaken. intros a b Hab. apply N.leb_le. exact Hab.
  - intros Hby Hord. revert Hs. unfold sortBy_of, sortOrder_of.
    rewrite Hby, Hord. cbn [str_or_default]. apply Sorted_weaken.
    intros a b Hab. exact Hab.
Qed.

Lemma page_in_requested_order_witness :
  exists data pg w',
    list_books (mkQuery None None None (Some "title") (Some "asc"))
               (with_books [ulysses; gatsby] world0)
    = Some (mkResponse 200 (Listing data pg), w') /\
    Sorted (fun a b => String.leb (title a) (title b) = true) data.
Proof.
  destruct (page_in_requested_order
              (mkQuery None None None (Some "title") (Some "asc"))
              (with_books [ulysses; gatsby] world0) (fun _ => true)
              eq_refl eq_refl
              ltac:(vm_compute; discriminate) ltac:(vm_compute; discriminate))
    as (data & pg & w' & H & _ & _ & Ht).
  exists data, pg, w'. split; [exact H|]. apply Ht; reflexivity.
Defined.

Lemma windows_concat (A : Type) (n : nat) :
  (0 < n)%nat ->
  forall m (l : list A),
    (List.length l <= m * n)%nat ->
    List.concat (map (fun k => firstn n (skipn (k * n) l)) (seq 0 m)) = l.
Proof.
  intros Hn. induction m as [|m IH]; intros l Hl.
  - destruct l; [reflexivity | cbn in Hl; lia].
  - cbn [seq map List.concat]. rewrite <- seq_shift, map_map.
    cbn [Nat.mul skipn].
    rewrite (map_ext _ (fun k => firstn n (skipn (k * n) (skipn n l)))).
    + rewrite IH; [apply firstn_skipn|].
      rewrite length_skipn. lia.
    + intros k. rewrite skipn_skipn. f_equal. f_equal. lia.
Qed.

Lemma insert_sorted_ext (A : Type) (le1 le2 : A -> A -> bool) (x : A)
    (l : list A) :
  (forall y, In y l -> le1 x y = le2 x y) ->
  insert_sorted le1 x l = insert_sorted le2 x l.
Proof.
  induction l as [|y t IH]; intros H; [reflexivity|].
  cbn [insert_sorted]. rewrite (H y (or_introl eq_refl)).
  rewrite IH; [reflexivity|]. intros z Hz. apply H. now right.
Qed.

(** Two orders that agree on the elements of a list sort it alike. *)
Lemma sort_by_ext (A : Type) (le1 le2 : A -> A -> bool) (l : list A) :
  (forall a b, In a l -> In b l -> le1 a b = le2 a b) ->
  sort_by le1 l = sort_by le2 l.
Proof.
  induction l as [|x t IH]; intros H; [reflexivity|].
  cbn [sort_by]. rewrite IH.
  - apply insert_sorted_ext. intros y Hy. apply H; [now left|].
    right. exact (Permutation_in _ (sort_by_perm _ le2 t) Hy).
  - intros a b Ha Hb. apply H; now right.
Qed.

(** Between books with different sort keys the store's order is the
    order of the keys, whatever its ranks. *)
Lemma store_leb_distinct (name : string) (direction : Z) (rank : Book -> Z)
    (a b : Book) :
  (sort_leb name direction a b = true -> sort_leb name direction b a = true ->
   a = b) ->
  store_leb name direction rank a b = sort_leb name direction a b.
Proof.
  intros Hab. unfold store_leb.
  destruct (sort_leb_total name direction a b) as [H | H]; rewrite H in *;
    destruct (sort_leb name direction a b) eqn:E1;
    destruct (sort_leb name direction b a) eqn:E2;
    cbn [andb negb]; try reflexivity; try discriminate;
    rewrite (Hab eq_refl eq_refl); apply Z.leb_refl.
Qed.

(** Walking the pages: for requests that agree on limit, sort and search
    and ask for pages 1, 2, ..., [m], with [m] pages enough to hold all
    matching books, and no two matching books sharing the sort key, the
    pages put one after the other are the matching books, each book
    once, in the requested order. *)
Theorem pages_cover_the_result (qs : nat -> Query) (m : nat) (w : World)
    (p : Book -> bool) (lim : Z) (search by_field : string) (dir : Z) :
  db_fault w = None ->
  1 <= lim ->
  Z.of_nat m * lim <= 2 ^ 53 ->
  compile_filter (searchQuery search) = Some p ->
  (forall k, (k < m)%nat ->
     page_of (qs k) = Z.of_nat k + 1 /\ limit_of (qs k) = lim /\
     search_of (qs k) = search /\
     sortBy_of (qs k) = by_field /\ sortOrder_of (qs k) = dir) ->
  (forall a b,
     In a (filter p (books w)) -> In b (filter p (books w)) ->
     sort_leb by_field dir a b = true -> sort_leb by_field dir b a = true ->
     a = b) ->
  Z.of_nat (List.length (filter p (books w))) <= Z.of_nat m * lim ->
  let page k :=
    match list_books (qs k) w with
    | Some (r, _) => listing_data r
    | None => []
    end in
  let all := List.concat (map page (seq 0 m)) in
  Permutation all (filter p (books w)) /\
  Sorted (fun a b => sort_leb by_field dir a b = true) all /\
  (by_field = "createdAt" -> dir = -1 ->
   Sorted (fun a b => (createdAt b <= createdAt a)%N) all) /\
  (by_field = "title" -> dir = 1 ->
   Sorted (fun a b => String.leb (title a) (title b) = true) all).
Proof.
  intros Hdb Hlim Hbig Hp Hqs Hkeys Hm page all.
  set (sorted := sort_by (sort_leb by_field dir) (filter p (books w))).
  assert (Hall : all = sorted).
  { unfold all.
    rewrite <- (windows_concat _ (Z.to_nat lim) ltac:(lia) m sorted).
    - f_equal. apply map_ext_in. intros k Hk. apply in_seq in Hk.
      destruct (Hqs k ltac:(lia)) as (Hpg & Hl & Hsr & Hb & Hd).
      assert (H53 : 2 ^ 53 = 9007199254740992) by reflexivity.
      assert (Hskip : skip_of (qs k) = Z.of_nat k * lim).
      { unfold skip_of, JsNum.mul, JsNum.sub. rewrite Hpg, Hl.
        replace (Z.of_nat k + 1 - 1) with (Z.of_nat k) by lia.
        rewrite (JsNumFacts.double_round_small (Z.of_nat k)) by nia.
        apply JsNumFacts.double_round_small. nia. }
      unfold page, list_books. rewrite Hsr, Hp.
      rewrite (list_with_eq p (qs k) w Hdb ltac:(rewrite Hskip; nia)).
      cbv zeta. unfold listing_data, limited. cbn [fst body].
      rewrite Hskip, Hl, Hb, Hd.
      assert (Hneg : (lim <? 0) = false) by (apply Z.ltb_ge; lia).
      rewrite Hneg.
      rewrite (sort_by_ext _ _ (sort_leb by_field dir)).
      + fold sorted. f_equal. f_equal. nia.
      + intros a b Ha Hb'. apply store_leb_distinct.
        apply Hkeys; assumption.
    - unfold sorted.
      rewrite (Permutation_length (sort_by_perm _ _ _)). nia. }
  rewrite Hall.
  assert (Hs : Sorted (fun a b => sort_leb by_field dir a b = true) sorted)
    by (apply sort_by_sorted, sort_leb_total).
  split; [apply sort_by_perm|]. split; [exact Hs|]. split.
  - intros -> ->. revert Hs. apply Sorted_weaken.
    intros a b Hab. apply N.leb_le. exact Hab.
  - intros -> ->. revert Hs. apply Sorted_weaken.
    intros a b Hab. exact Hab.
Qed.

Lemma pages_cover_the_result_witness :
  let qs k := mkQuery (Some (Text.show_nat (N.of_nat (k + 1)))) (Some "3")
                None None None in
  let page k :=
    match list_books (qs k) (with_books (shelf 7) world0) with
    | Some (r, _) => listing_data r
    | None => []
    end in
  Permutation (List.concat (map page (seq 0 3))) (shelf 7) /\
  Sorted (fun a b => (createdAt b <= createdAt a)%N)
         (List.concat (map page (seq 0 3))).
Proof.
  cbv zeta.
  assert (Hqs : forall k, (k < 3)%nat ->
            page_of (mkQuery (Some (Text.show_nat (N.of_nat (k + 1))))
                       (Some "3") None None None) = Z.of_nat k + 1 /\
            limit_of (mkQuery (Some (Text.show_nat (N.of_nat (k + 1))))
                        (Some "3") None None None) = 3 /\
            search_of (mkQuery (Some (Text.show_nat (N.of_nat (k + 1))))
                         (Some "3") None None None) = "" /\
            sortBy_of (mkQuery (Some (Text.show_nat (N.of_nat (k + 1))))
                         (Some "3") None None None) = "createdAt" /\
            sortOrder_of (mkQuery (Some (Text.show_nat (N.of_nat (k + 1))))
                            (Some "3") None None None) = -1).
  { intros k Hk. do 3 (destruct k as [|k]; [repeat split|]). lia. }
  assert (Hkeys : forall a b,
            In a (filter (fun _ => true) (books (with_books (shelf 7) world0))) ->
            In b (filter (fun _ => true) (books (with_books (shelf 7) world0))) ->
            sort_leb "createdAt" (-1) a b = true ->
            sort_leb "createdAt" (-1) b a = true -> a = b).
  { intros a b Ha Hb. rewrite filter_all in Ha, Hb.
    cbn [books with_books] in Ha, Hb.
    unfold sort_leb, field_value. cbn [Z.ltb Z.compare String.eqb Ascii.eqb Bool.eqb value_leb].
    intros H1 H2. apply N.leb_le in H1, H2.
    assert (Hc : createdAt a = createdAt b) by lia. clear H1 H2.
    change (shelf 7) with (map numbered (seq 0 7)) in Ha, Hb.
    apply in_map_iff in Ha as (i & <- & Hi).
    apply in_map_iff in Hb as (j & <- & Hj).
    apply in_seq in Hi, Hj. unfold numbered in Hc. cbn [createdAt] in Hc.
    assert (i = j) by lia. subst j. reflexivity. }
  pose proof (pages_cover_the_result
                (fun k => mkQuery (Some (Text.show_nat (N.of_nat (k + 1))))
                            (Some "3") None None None)
                3 (with_books (shelf 7) world0) (fun _ => true)
                3 "" "createdAt" (-1) eq_refl ltac:(lia)
                ltac:(vm_compute; discriminate) eq_refl Hqs Hkeys
                ltac:(vm_compute; discriminate)) as H.
  cbv zeta in H. rewrite filter_all in H.
  destruct H as (Hperm & _ & Hsorted & _).
  split; [exact Hperm | exact (Hsorted eq_refl eq_refl)].
Defined.

(** ** Order of effects in a create *)

(** A create with an image that is answered 201 has done exactly two
    things, in this order: the file was written to the disk, then the
    book was inserted.  Nothing was removed. *)
Theorem created_with_file_effects (req : CreateRequest) (u : Upload)
    (w w' : World) (m : string) (b : Book) :
  upload req = Some u ->
  post_books req w = (mkResponse 201 (Created m b), w') ->
  trace w' =
  (trace w ++ [FsWrite ("uploads/" ++ fst (storage_filename u w));
               DbInsert b])%list.
Proof.
  intros Hu H. apply post_books_created in H as (_ & file & w1 & Hup & Hs).
  apply save_ok_inv in Hs as (_ & -> & _). cbn [trace].
  rewrite Hu in Hup.
  destruct (Text.startsWith (mimetype u) "image/") eqn:Hm.
  - pose proof (upload_single_image u w Hm) as Hp. cbv zeta in Hp.
    rewrite Hp in Hup.
    destruct (fileSize <? size u); [discriminate|].
    injection Hup as _ <-. cbn [trace]. rewrite <- app_assoc. reflexivity.
  - unfold upload_single, fileFilter in Hup. rewrite Hm in Hup.
    discriminate.
Qed.

Lemma created_with_file_effects_witness :
  exists b w',
    post_books (mkCreateRequest (Some "The Great Gatsby")
                  (Some "F. Scott Fitzgerald")
                  (Some "A portrait of the Jazz Age") (Some cover)) world0
    = (mkResponse 201 (Created "Book added successfully" b), w') /\
    trace w' = [FsWrite "uploads/book-1700000000000-424242.png"; DbInsert b].
Proof.
  eexists _, _. split; [vm_compute; reflexivity|].
  apply (created_with_file_effects
    (mkCreateRequest (Some "The Great Gatsby")
       (Some "F. Scott Fitzgerald")
       (Some "A portrait of the Jazz Age") (Some cover))
    cover world0 _ "Book added successfully" _ eq_refl eq_refl).
Defined.

(** When the request validation finds errors and the upload step did not
    itself fail (no file, or an image within the size limit), the answer
    is 400 "Validation failed" with exactly those errors, and the store
    is never asked: no insert is attempted and the collection is
    unchanged. *)
Theorem validation_failure_skips_store (req : CreateRequest) (w : World) :
  fst (addBookValidation req) <> [] ->
  (upload req = None \/
   exists u, upload req = Some u /\
             Text.startsWith (mimetype u) "image/" = true /\
             size u <= fileSize) ->
  fst (post_books req w) =
  mkResponse 400 (Invalid "Validation failed" (fst (addBookValidation req))) /\
  books (snd (post_books req w)) = books w /\
  exists evs,
    trace (snd (post_books req w)) = (trace w ++ evs)%list /\
    trace_has_insert evs = false.
Proof.
  intros Herr [Hu | (u & Hu & Hm & Hs)].
  - rewrite (post_books_no_file req w Hu).
    destruct (addBookValidation req) as [[|e errors] fields];
      [now elim Herr|].
    cbn [fst snd]. split; [reflexivity|]. split; [reflexivity|].
    exists []. split; [now rewrite app_nil_r | reflexivity].
  - rewrite (post_books_with_file req u w Hu Hm Hs). cbv zeta.
    destruct (addBookValidation req) as [[|e errors] fields];
      [now elim Herr|].
    cbn [fst snd]. split; [reflexivity|].
    rewrite unlink_eq. cbn [snd files unlink_denied books trace].
    split; [reflexivity|].
    eexists [_; _].
    split; [rewrite <- app_assoc; reflexivity | reflexivity].
Qed.

Lemma validation_failure_skips_store_witness :
  status (fst (post_books
                 (mkCreateRequest (Some "The Great Gatsby") None
                    (Some "short") (Some cover)) world0)) = 400 /\
  books (snd (post_books
                (mkCreateRequest (Some "The Great Gatsby") None
                   (Some "short") (Some cover)) world0)) = [].
Proof.
  assert (Herr : fst (addBookValidation
                        (mkCreateRequest (Some "The Great Gatsby") None
                           (Some "short") (Some cover))) <> [])
    by (vm_compute; discriminate).
  assert (Hup : upload (mkCreateRequest (Some "The Great Gatsby") None
                          (Some "short") (Some cover)) = None \/
                exists u, upload (mkCreateRequest (Some "The Great Gatsby")
                                    None (Some "short") (Some cover)) = Some u /\
                          Text.startsWith (mimetype u) "image/" = true /\
                          size u <= fileSize).
  { right. exists cover. split; [reflexivity|]. split; [reflexivity|].
    vm_compute. discriminate. }
  destruct (validation_failure_skips_store _ world0 Herr Hup)
    as (Hr & Hb & _).
  split; [rewrite Hr; reflexivity | exact Hb].
Defined.

(** ** Names of stored uploads *)

Module NameFacts.
Import Text.

Lemma chars_app (a b : string) : chars (a ++ b) = (chars a ++ chars b)%list.
Proof.
  unfold chars. induction a as [|c a IH]; [reflexivity|].
  cbn [append list_ascii_of_string app]. now rewrite IH.
Qed.

Lemma chars_inj (a b : string) : chars a = chars b -> a = b.
Proof.
  intros H. rewrite <- (string_of_list_ascii_of_string a),
    <- (string_of_list_ascii_of_string b).
  unfold chars in H. now rewrite H.
Qed.

Lemma uint_digits (d : Decimal.uint) :
  forallb is_digit (chars (NilEmpty.string_of_uint d)) = true.
Proof.
  induction d; cbn [NilEmpty.string_of_uint chars list_ascii_of_string forallb];
    [reflexivity | ..]; exact IHd.
Qed.

Lemma show_nat_digits (n : N) : forallb is_digit (chars (show_nat n)) = true.
Proof.
  unfold show_nat, NilZero.string_of_uint.
  destruct (N.to_uint n) eqn:E; try (rewrite <- E at 1; rewrite E);
    try apply uint_digits. reflexivity.
Qed.

Lemma show_nat_inj (a b : N) : show_nat a = show_nat b -> a = b.
Proof.
  unfold show_nat. intros H.
  apply DecimalN.Unsigned.to_uint_inj.
  assert (Hnil : forall n, N.to_uint n <> Decimal.Nil).
  { intros [|q]; [discriminate|]. apply DecimalPos.Unsigned.to_uint_nonnil. }
  pose proof (NilZero.usu _ (Hnil a)) as Ha.
  pose proof (NilZero.usu _ (Hnil b)) as Hb.
  rewrite H in Ha. congruence.
Qed.

(** A run of digits followed by something that does not start with a
    digit is split in one way only. *)
Lemma digits_split (la : list ascii) :
  forall la' r r',
    forallb is_digit la = true -> forallb is_digit la' = true ->
    no_lead_digit r -> no_lead_digit r' ->
    (la ++ r = la' ++ r')%list -> la = la' /\ r = r'.
Proof.
  induction la as [|c t IH]; intros la' r r' Ha Ha' Hr Hr' E.
  - destruct la' as [|c' t']; [auto|].
    cbn [app] in E. subst r. cbn [no_lead_digit forallb] in *.
    apply andb_true_iff in Ha' as [Hc _]. congruence.
  - destruct la' as [|c' t'].
    + cbn [app] in E. subst r'. cbn [no_lead_digit forallb] in *.
      apply andb_true_iff in Ha as [Hc _]. congruence.
    + cbn [app forallb] in *. injection E as -> E.
      apply andb_true_iff in Ha as [_ Ha].
      apply andb_true_iff in Ha' as [_ Ha'].
      destruct (IH t' r r' Ha Ha' Hr Hr' E) as [-> ->]. auto.
Qed.

Lemma from_last_dot_head (l e : list ascii) :
  from_last_dot l = Some e -> exists t, e = "."%char :: t.
Proof.
  revert e. induction l as [|c t IH]; intros e; cbn [from_last_dot];
    [discriminate|].
  destruct (from_last_dot t) as [e'|].
  - intros [= <-]. now apply IH.
  - destruct (Ascii.eqb_spec c "."); [|discriminate].
    intros [= <-]. subst c. eauto.
Qed.

Lemma extname_no_lead_digit (name : string) :
  no_lead_digit (chars (extname name)).
Proof.
  unfold extname. destruct (base (chars name)) as [|c t]; [exact I|].
  destruct (String.eqb _ ".."); [exact I|].
  destruct (from_last_dot t) as [e|] eqn:E; [|exact I].
  apply from_last_dot_head in E as [t' ->].
  rewrite TextFacts.chars_of_list. reflexivity.
Qed.

End NameFacts.

(** The name given to a stored upload determines the clock reading and
    the random number it was made from (and the extension): two uploads
    get the same name only when both numbers coincide. *)
Theorem storage_filename_collision (u1 u2 : Upload) (w1 w2 : World) :
  fst (storage_filename u1 w1) = fst (storage_filename u2 w2) ->
  now w1 = now w2 /\ random w1 = random w2 /\
  extname (originalname u1) = extname (originalname u2).
Proof.
  unfold storage_filename, bind, get, ret. cbn [fst].
  intros H. apply (f_equal Text.chars) in H.
  rewrite !NameFacts.chars_app in H.
  apply app_inv_head in H. rewrite <- !app_assoc in H.
  apply NameFacts.digits_split in H as [Hn H];
    [ | apply NameFacts.show_nat_digits | apply NameFacts.show_nat_digits
      | reflexivity | reflexivity ].
  cbn [Text.chars list_ascii_of_string app] in H. injection H as H.
  apply NameFacts.digits_split in H as [Hr He];
    [ | apply NameFacts.show_nat_digits | apply NameFacts.show_nat_digits
      | apply NameFacts.extname_no_lead_digit
      | apply NameFacts.extname_no_lead_digit ].
  repeat split.
  - apply NameFacts.show_nat_inj, NameFacts.chars_inj, Hn.
  - apply NameFacts.show_nat_inj, NameFacts.chars_inj, Hr.
  - apply NameFacts.chars_inj, He.
Qed.

Lemma storage_filename_collision_witness :
  fst (storage_filename cover world0) =
  fst (storage_filename (mkUpload "other.png" "image/png" 10)
         (with_books [gatsby] world0)) /\
  extname "cover.png" = extname "other.png".
Proof.
  split; [reflexivity|].
  apply (storage_filename_collision cover
           (mkUpload "other.png" "image/png" 10) world0
           (with_books [gatsby] world0)).
  reflexivity.
Defined.

(** ** Letter case of the search text *)

(** Two search texts without special characters that differ only in the
    case of their letters select the same books. *)
Theorem search_term_case_irrelevant (s1 s2 : string) :
  s1 <> "" -> s2 <> "" ->
  plain s1 = true -> plain s2 = true ->
  map Text.lower (Text.chars s1) = map Text.lower (Text.chars s2) ->
  exists p1 p2,
    compile_filter (searchQuery s1) = Some p1 /\
    compile_filter (searchQuery s2) = Some p2 /\
    forall b, p1 b = p2 b.
Proof.
  intros H1 H2 P1 P2 Hlow.
  destruct (SearchFacts.compile_filter_search s1 _ H1
              (SearchFacts.compile_plain _ P1)) as (p1 & Hp1 & E1).
  destruct (SearchFacts.compile_filter_search s2 _ H2
              (SearchFacts.compile_plain _ P2)) as (p2 & Hp2 & E2).
  exists p1, p2. split; [exact Hp1|]. split; [exact Hp2|].
  assert (Ht : forall text,
            Regex.test (Regex.literal (Text.chars s1)) text =
            Regex.test (Regex.literal (Text.chars s2)) text).
  { intros text. apply Bool.eq_true_iff_eq.
    rewrite !SearchFacts.test_literal. unfold occurs_ci.
    rewrite Hlow. reflexivity. }
  intros b. rewrite E1, E2. unfold any_field. rewrite !Ht. reflexivity.
Qed.

Lemma search_term_case_irrelevant_witness :
  exists p1 p2,
    compile_filter (searchQuery "Great Gatsby") = Some p1 /\
    compile_filter (searchQuery "gREAT gatsby") = Some p2 /\
    forall b, p1 b = p2 b.
Proof.
  apply (search_term_case_irrelevant "Great Gatsby" "gREAT gatsby");
    try discriminate; reflexivity.
Defined.
